(** * Embedding retrieval core of vector-embeddings-qa

    A shallow embedding of [src/main.py] and [src/9_agno_qa.py]: the content
    loader, the JSON embedding store, the cosine-similarity search and the
    context assembly, with the properties the specification states about
    them.

    Python values are modelled by the types the program gives them: texts
    are strings, an embedding is a list of binary64 floats, the store is a
    dict with the keys ["texts"] and ["embeddings"].  Exceptions are an
    error monad.  NumPy and the [json] module are libraries of the program;
    the parts the program calls are modelled after their documented
    behaviour, with the shapes NumPy checks at run time made explicit. *)

From Stdlib Require Import ZArith Bool List Ascii String Lia.
From Stdlib Require Import Sorting.Sorted Sorting.Permutation.
From Stdlib Require Import Floats.SpecFloat.
From stdpp Require Import base option list gmap strings sorting.

Local Open Scope Z_scope.

(** ** Python exceptions as an error monad *)

Inductive exn : Type :=
  | ValueError
  | AxisError
  | IndexError
  | FileNotFoundError
  | JSONDecodeError
  | ProviderError.

Inductive result (A : Type) : Type :=
  | Ok (a : A)
  | Raise (e : exn).
Arguments Ok {A} a.
Arguments Raise {A} e.

#[global] Instance result_ret : MRet result := fun A a => Ok a.
#[global] Instance result_bind : MBind result := fun A B f m =>
  match m with
  | Ok a => f a
  | Raise e => Raise e
  end.
#[global] Instance result_fmap : FMap result := fun A B f m =>
  match m with
  | Ok a => Ok (f a)
  | Raise e => Raise e
  end.

Definition raises {A} (m : result A) : Prop := ∃ e, m = Raise e.

(** ** binary64 floats *)

Module F64.

Definition prec : Z := 53.
Definition emax : Z := 1024.

Definition float : Type := spec_float.

Definition add : float → float → float := SFadd prec emax.
Definition mul : float → float → float := SFmul prec emax.
Definition div : float → float → float := SFdiv prec emax.
Definition sqrt : float → float := SFsqrt prec emax.
Definition ltb : float → float → bool := SFltb.
Definition leb : float → float → bool := SFleb.
Definition eqb : float → float → bool := SFeqb.

(** The float of an integer literal, rounded to nearest even. *)
Definition of_Z (z : Z) : float := binary_normalize prec emax z 0 false.

Definition zero : float := S754_zero false.
Definition one : float := of_Z 1.

Definition is_nan (x : float) : bool :=
  match x with S754_nan => true | _ => false end.
Definition is_inf (x : float) : bool :=
  match x with S754_infinity _ => true | _ => false end.
Definition is_zero (x : float) : bool :=
  match x with S754_zero _ => true | _ => false end.
(** [math.isfinite]: neither NaN nor an infinity. *)
Definition is_finite (x : float) : bool := negb (is_nan x || is_inf x).

End F64.

Abbreviation float := F64.float.

(** ** The parts of NumPy that [find_most_similar] calls *)

Module Np.

(** What [np.array] makes of a list of lists of floats: the empty list
    gives a one-dimensional array of shape [(0,)], [N >= 1] rows of one
    length [D] give a matrix of shape [(N, D)]. *)
Inductive ndarray : Type :=
  | Arr1 (data : list float)
  | Arr2 (ncols : nat) (rows : list (list float)).

(** The result of [np.dot] with a one-dimensional right operand: a scalar
    for a one-dimensional left operand, a vector for a matrix. *)
Inductive dot_out : Type :=
  | Dot0 (x : float)
  | Dot1 (data : list float).

(** [np.array(embeddings)].  Rows of different lengths raise
    [ValueError] (inhomogeneous shape; NumPy 1.24 and later). *)
Definition array (embeddings : list (list float)) : result ndarray :=
  match embeddings with
  | [] => Ok (Arr1 [])
  | r :: rs =>
      if forallb (fun r' => Nat.eqb (length r') (length r)) rs
      then Ok (Arr2 (length r) embeddings)
      else Raise ValueError
  end.

(** Sum of products, accumulated from the left starting at [+0.0].
    NumPy does not fix the order of accumulation; the statements below
    that hold for every input do not depend on it. *)
Definition inner (a b : list float) : float :=
  fold_left (fun acc p => F64.add acc (F64.mul (fst p) (snd p)))
            (combine a b) F64.zero.

(** [np.dot(a, q)] for a one-dimensional [q]: the contracted dimensions
    must agree, else [ValueError] (shapes not aligned). *)
Definition dot (a : ndarray) (q : list float) : result dot_out :=
  match a with
  | Arr1 v =>
      if Nat.eqb (length v) (length q) then Ok (Dot0 (inner v q))
      else Raise ValueError
  | Arr2 d rows =>
      if Nat.eqb d (length q) then Ok (Dot1 (map (fun r => inner r q) rows))
      else Raise ValueError
  end.

(** [np.linalg.norm(q)] of a one-dimensional array: the square root of
    the sum of the squares. *)
Definition linalg_norm (q : list float) : float := F64.sqrt (inner q q).

(** [np.linalg.norm(a, axis=1)]: one norm per row; an array with a single
    dimension has no axis 1. *)
Definition linalg_norm_axis1 (a : ndarray) : result (list float) :=
  match a with
  | Arr1 _ => Raise AxisError
  | Arr2 _ rows => Ok (map linalg_norm rows)
  end.

(** A one-dimensional array times a scalar. *)
Definition scale (v : list float) (s : float) : list float :=
  map (fun x => F64.mul x s) v.

(** Element-wise division of two one-dimensional arrays, with NumPy's
    broadcasting of a length-one operand.  Division by zero does not
    raise: it yields an infinity or NaN. *)
Definition divide1 (u v : list float) : result (list float) :=
  if Nat.eqb (length u) (length v) then
    Ok (map (fun p => F64.div (fst p) (snd p)) (combine u v))
  else match u, v with
       | [x], _ => Ok (map (fun y => F64.div x y) v)
       | _, [y] => Ok (map (fun x => F64.div x y) u)
       | _, _ => Raise ValueError
       end.

Definition divide (n : dot_out) (v : list float) : result (list float) :=
  match n with
  | Dot0 x => Ok (map (fun y => F64.div x y) v)
  | Dot1 u => divide1 u v
  end.

(** The order NumPy sorts floats by: [a < b], with NaN after every
    number. *)
Definition lt (a b : float) : bool :=
  F64.ltb a b || (F64.is_nan b && negb (F64.is_nan a)).

(** [np.argsort(v)]: the indices of [v] in ascending order of their
    values.  With the default kind NumPy promises an ascending order and
    nothing about the order of equal values.  The function below computes
    one such order, by insertion; [argsort_result] further down is the
    promise itself, and what is stated about the order of a result is
    stated for every order that meets it. *)
Fixpoint insert (v : list float) (i : nat) (l : list nat) : list nat :=
  match l with
  | [] => [i]
  | j :: l' =>
      if lt (nth j v F64.zero) (nth i v F64.zero)
      then j :: insert v i l'
      else i :: l
  end.

Definition argsort (v : list float) : list nat :=
  fold_right (insert v) [] (seq 0 (length v)).

End Np.

(** ** Python list and string operations *)

Module Py.

(** [l[start:]] with Python's treatment of a negative or too large
    [start]. *)
Definition slice_from {A} (l : list A) (start : Z) : list A :=
  let n := Z.of_nat (length l) in
  let s := if start <? 0 then Z.max (start + n) 0 else Z.min start n in
  drop (Z.to_nat s) l.

(** [l[i]] for a non-negative index. *)
Definition getitem {A} (l : list A) (i : nat) : result A :=
  match l !! i with
  | Some x => Ok x
  | None => Raise IndexError
  end.

(** [[f(i) for i in l]] where [f] may raise. *)
Fixpoint comprehension {A B} (f : A → result B) (l : list A)
  : result (list B) :=
  match l with
  | [] => Ok []
  | x :: l' => y ← f x; ys ← comprehension f l'; Ok (y :: ys)
  end.

Definition LF : ascii := "010"%char.
Definition CR : ascii := "013"%char.

(** [str.isspace] on one character, for the code points below 256:
    tab to carriage return, the four separators 28 to 31, space, NEL and
    the no-break space. *)
Definition isspace (c : ascii) : bool :=
  let n := N_of_ascii c in
  ((9 <=? n) && (n <=? 13) || (28 <=? n) && (n <=? 32)
   || (n =? 133) || (n =? 160))%N.

Fixpoint lstrip (s : string) : string :=
  match s with
  | EmptyString => EmptyString
  | String c r => if isspace c then lstrip r else s
  end.

Fixpoint rstrip (s : string) : string :=
  match s with
  | EmptyString => EmptyString
  | String c r =>
      match rstrip r with
      | EmptyString => if isspace c then EmptyString else String c EmptyString
      | r' => String c r'
      end
  end.

(** [s.strip()] *)
Definition strip (s : string) : string := rstrip (lstrip s).

(** The truth value of a string in a condition. *)
Definition truthy (s : string) : bool :=
  match s with EmptyString => false | String _ _ => true end.

(** Text mode with universal newlines: CR LF and a lone CR are read as
    LF. *)
Fixpoint universal_newlines (s : string) : string :=
  match s with
  | EmptyString => EmptyString
  | String c r =>
      if Ascii.eqb c CR then
        match r with
        | String c' r' =>
            if Ascii.eqb c' LF then String LF (universal_newlines r')
            else String LF (universal_newlines r)
        | EmptyString => String LF EmptyString
        end
      else String c (universal_newlines r)
  end.

(** The lines a text file object yields when iterated: each keeps its
    terminating LF, the last one has none when the text does not end in
    one. *)
Fixpoint iter_lines (s : string) : list string :=
  match s with
  | EmptyString => []
  | String c r =>
      if Ascii.eqb c LF then String LF EmptyString :: iter_lines r
      else match iter_lines r with
           | [] => [String c EmptyString]
           | l :: ls => String c l :: ls
           end
  end.

(** [sep.join(l)] *)
Fixpoint join (sep : string) (l : list string) : string :=
  match l with
  | [] => EmptyString
  | x :: l' =>
      match l' with
      | [] => x
      | _ :: _ => (x ++ sep ++ join sep l')%string
      end
  end.

(** [str.lower] on one character, for the code points below 256: the
    letters [A] to [Z] and the capital letters of Latin-1 (192 to 222
    without the multiplication sign 215) move up by 32. *)
Definition lower_char (c : ascii) : ascii :=
  let n := N_of_ascii c in
  if ((65 <=? n) && (n <=? 90)
      || (192 <=? n) && (n <=? 222) && negb (n =? 215))%N
  then ascii_of_N (n + 32)
  else c.

(** [s.lower()] *)
Fixpoint lower (s : string) : string :=
  match s with
  | EmptyString => EmptyString
  | String c r => String (lower_char c) (lower r)
  end.

End Py.

(** ** The world the program runs in *)

(** The dict written to and read from [embedding_data/embedding.json]. *)
Record store : Type := Store {
  texts : list string;
  embeddings : list (list float);
}.

(** What [json.load] finds in a file. *)
Inductive json_file : Type :=
  | NotJson
  | Document (data : store).

(** The two files the program opens, each by its fixed path, the process
    environment and the module-level global of [9_agno_qa.py]. *)
Record world : Type := World {
  content_txt : option string;
  embedding_data_dir : bool;
  embedding_json : option json_file;
  environ : gmap string string;
  stored_data : option store;
}.

Definition set_embedding_json (j : option json_file) (w : world) : world :=
  World (content_txt w) (embedding_data_dir w) j (environ w) (stored_data w).

Definition set_stored_data (d : option store) (w : world) : world :=
  World (content_txt w) (embedding_data_dir w) (embedding_json w) (environ w) d.

(** The external services: [embeddings.create(model, input)] read up to
    [.data[0].embedding], and [chat.completions.create(model, messages)]
    read up to [.choices[0].message.content]. *)
Record provider : Type := Provider {
  embeddings_create : string → string → result (list float);
  chat_completions_create : string → list (string * string) → result string;
}.

(** State and exceptions. *)
Definition M (A : Type) : Type := world → result A * world.

#[global] Instance M_ret : MRet M := fun A a w => (Ok a, w).
#[global] Instance M_bind : MBind M := fun A B f m w =>
  match m w with
  | (Ok a, w') => f a w'
  | (Raise e, w') => (Raise e, w')
  end.

Definition lift {A} (r : result A) : M A := fun w => (r, w).
Definition gets {A} (f : world → A) : M A := fun w => (Ok (f w), w).
Definition modify (f : world → world) : M unit := fun w => (Ok tt, f w).
Definition raise {A} (e : exn) : M A := lift (Raise e).

(** [try: m except Exception: handler] *)
Definition try_except {A} (m : M A) (handler : M A) : M A := fun w =>
  match m w with
  | (Ok a, w') => (Ok a, w')
  | (Raise _, w') => handler w'
  end.

(** [[f(x) for x in l]] where [f] has effects. *)
Fixpoint for_each {A B} (f : A → M B) (l : list A) : M (list B) :=
  match l with
  | [] => mret []
  | x :: l' => y ← f x; ys ← for_each f l'; mret (y :: ys)
  end.

Module Os.
(** [os.getenv(name, default)] *)
Definition getenv (name fallback : string) : M string :=
  gets (fun w => default fallback (environ w !! name)).

(** [os.path.exists("embedding_data/embedding.json")] *)
Definition path_exists_embedding_json : M bool :=
  gets (fun w => bool_decide (is_Some (embedding_json w))).
End Os.

(** ** [src/main.py] *)

Module Main.

(** [with open("content_data/content.txt", "r") as f]: the lines of the
    file. *)
Definition open_content_txt : M (list string) := fun w =>
  match content_txt w with
  | Some text => (Ok (Py.iter_lines (Py.universal_newlines text)), w)
  | None => (Raise FileNotFoundError, w)
  end.

(** [[line.strip() for line in f if line.strip()]] *)
Fixpoint stripped_lines (f : list string) : list string :=
  match f with
  | [] => []
  | line :: f' =>
      if Py.truthy (Py.strip line)
      then Py.strip line :: stripped_lines f'
      else stripped_lines f'
  end.

Definition load_content : M (list string) :=
  f ← open_content_txt;
  mret (stripped_lines f).

Definition create_embeddings (p : provider) (texts : list string)
  : M (list (list float)) :=
  model ← Os.getenv "EMBEDDING_MODEL" "text-embedding-3-small";
  for_each (fun text => lift (embeddings_create p model text)) texts.

(** Opening for writing creates or truncates the file and needs its
    directory; [json.dump] then writes the dict. *)
Definition save_embeddings (texts : list string)
    (embeddings : list (list float)) : M unit :=
  let data := Store texts embeddings in
  dir ← gets embedding_data_dir;
  if dir : bool then modify (set_embedding_json (Some (Document data)))
  else raise FileNotFoundError.

Definition load_embeddings : M store := fun w =>
  match embedding_json w with
  | Some (Document data) => (Ok data, w)
  | Some NotJson => (Raise JSONDecodeError, w)
  | None => (Raise FileNotFoundError, w)
  end.

(** The cosine similarities computed by [find_most_similar]. *)
Definition similarities (query_embedding : list float)
    (embeddings : list (list float)) : result (list float) :=
  embeddings_array ← Np.array embeddings;
  let query_array := query_embedding in
  num ← Np.dot embeddings_array query_array;
  norms ← Np.linalg_norm_axis1 embeddings_array;
  Np.divide num (Np.scale norms (Np.linalg_norm query_array)).

(** [top_indices = np.argsort(similarities)[-top_k:]] *)
Definition top_indices (query_embedding : list float)
    (embeddings : list (list float)) (top_k : Z) : result (list nat) :=
  similarities ← similarities query_embedding embeddings;
  Ok (Py.slice_from (Np.argsort similarities) (- top_k)).

Definition find_most_similar (query_embedding : list float)
    (embeddings : list (list float)) (texts : list string) (top_k : Z)
  : result (list string) :=
  top_indices ← top_indices query_embedding embeddings top_k;
  Py.comprehension (fun i => Py.getitem texts i) top_indices.

(** The default of the parameter [top_k]. *)
Definition default_top_k : Z := 3.

(** [answer_question] up to the assignment of [context]. *)
Definition relevant_context (p : provider) (question : string) : M string :=
  model ← Os.getenv "EMBEDDING_MODEL" "text-embedding-3-small";
  question_embedding ← lift (embeddings_create p model question);
  stored_data ← load_embeddings;
  relevant_texts ← lift (find_most_similar question_embedding
                           (embeddings stored_data) (texts stored_data)
                           default_top_k);
  mret (Py.join (String Py.LF (String Py.LF EmptyString)) relevant_texts).

Definition system_prompt : string :=
  "You are a helpful assistant. Answer the question based on the provided context. If the answer cannot be found in the context, say so.".

Definition user_prompt (context question : string) : string :=
  ("Context:" ++ String Py.LF context
     ++ String Py.LF (String Py.LF "Question: ") ++ question)%string.

Definition answer_question (p : provider) (question : string) : M string :=
  context ← relevant_context p question;
  completion_model ← Os.getenv "COMPLETION_MODEL" "gpt-4.1-mini";
  lift (chat_completions_create p completion_model
          [("system", system_prompt);
           ("user", user_prompt context question)]%string).

(** [main] up to the question loop: load the store when its file exists,
    build and save it otherwise. *)
Definition main_startup (p : provider) : M store :=
  present ← Os.path_exists_embedding_json;
  if present : bool then load_embeddings
  else
    texts ← load_content;
    embeddings ← create_embeddings p texts;
    _ ← save_embeddings texts embeddings;
    mret (Store texts embeddings).

(** How a run of [main] ends: the user quits, the input ends ([input]
    raises [EOFError]), or an exception of the program is not caught. *)
Inductive halt : Type :=
  | Quit
  | EndOfInput
  | Uncaught (e : exn).

Definition prompt : string :=
  String Py.LF "Enter your question (or 'quit' to exit): ".

Definition finding_answer : string := String Py.LF "Finding answer...".

Definition answer_line (answer : string) : string :=
  (String Py.LF "Answer: " ++ answer)%string.

(** The question loop of [main] over the lines the user types.  Returns
    what is written to the terminal (the prompts of [input] and the
    arguments of [print], in order), how the run ends and the final
    world. *)
Fixpoint question_loop (p : provider) (stdin : list string) (w : world)
  : list string * halt * world :=
  match stdin with
  | [] => ([prompt], EndOfInput, w)
  | question :: stdin' =>
      if String.eqb (Py.lower question) "quit" then ([prompt], Quit, w)
      else
        match answer_question p question w with
        | (Ok answer, w') =>
            let '(out, h, w'') := question_loop p stdin' w' in
            (prompt :: finding_answer :: answer_line answer :: out, h, w'')
        | (Raise e, w') => ([prompt; finding_answer], Uncaught e, w')
        end
  end.

(** [main]: load the store when its file exists, build and save it
    otherwise, then answer questions until the user quits. *)
Definition main (p : provider) (stdin : list string) (w : world)
  : list string * halt * world :=
  match Os.path_exists_embedding_json w with
  | (Ok true, w0) =>
      match load_embeddings w0 with
      | (Ok _, w1) =>
          let '(out, h, w2) := question_loop p stdin w1 in
          ("Loading existing embeddings..."%string :: out, h, w2)
      | (Raise e, w1) => (["Loading existing embeddings..."%string], Uncaught e, w1)
      end
  | (Ok false, w0) =>
      match load_content w0 with
      | (Ok texts, w1) =>
          match create_embeddings p texts w1 with
          | (Ok embeddings, w2) =>
              match save_embeddings texts embeddings w2 with
              | (Ok _, w3) =>
                  let '(out, h, w4) := question_loop p stdin w3 in
                  ("Creating embeddings..."%string
                     :: "Saving embeddings..."%string :: out, h, w4)
              | (Raise e, w3) =>
                  (["Creating embeddings..."; "Saving embeddings..."]%string,
                   Uncaught e, w3)
              end
          | (Raise e, w2) => (["Creating embeddings..."%string], Uncaught e, w2)
          end
      | (Raise e, w1) => ([], Uncaught e, w1)
      end
  | (Raise e, w0) => ([], Uncaught e, w0)
  end.

End Main.

(** ** [src/9_agno_qa.py] *)

Module AgnoQA.

(** [with open("content_data/content.txt", "r") as f]: the lines of the
    file. *)
Definition open_content_txt : M (list string) := fun w =>
  match content_txt w with
  | Some text => (Ok (Py.iter_lines (Py.universal_newlines text)), w)
  | None => (Raise FileNotFoundError, w)
  end.

(** [[line.strip() for line in f if line.strip()]] *)
Fixpoint stripped_lines (f : list string) : list string :=
  match f with
  | [] => []
  | line :: f' =>
      if Py.truthy (Py.strip line)
      then Py.strip line :: stripped_lines f'
      else stripped_lines f'
  end.

Definition load_content : M (list string) :=
  f ← open_content_txt;
  mret (stripped_lines f).

Definition create_embeddings (p : provider) (texts : list string)
  : M (list (list float)) :=
  model ← Os.getenv "EMBEDDING_MODEL" "text-embedding-3-small";
  for_each (fun text => lift (embeddings_create p model text)) texts.

(** Opening for writing creates or truncates the file and needs its
    directory; [json.dump] then writes the dict. *)
Definition save_embeddings (texts : list string)
    (embeddings : list (list float)) : M unit :=
  let data := Store texts embeddings in
  dir ← gets embedding_data_dir;
  if dir : bool then modify (set_embedding_json (Some (Document data)))
  else raise FileNotFoundError.

Definition load_embeddings : M store := fun w =>
  match embedding_json w with
  | Some (Document data) => (Ok data, w)
  | Some NotJson => (Raise JSONDecodeError, w)
  | None => (Raise FileNotFoundError, w)
  end.

(** The cosine similarities computed by [find_most_similar]. *)
Definition similarities (query_embedding : list float)
    (embeddings : list (list float)) : result (list float) :=
  embeddings_array ← Np.array embeddings;
  let query_array := query_embedding in
  num ← Np.dot embeddings_array query_array;
  norms ← Np.linalg_norm_axis1 embeddings_array;
  Np.divide num (Np.scale norms (Np.linalg_norm query_array)).

(** [top_indices = np.argsort(similarities)[-top_k:]] *)
Definition top_indices (query_embedding : list float)
    (embeddings : list (list float)) (top_k : Z) : result (list nat) :=
  similarities ← similarities query_embedding embeddings;
  Ok (Py.slice_from (Np.argsort similarities) (- top_k)).

Definition find_most_similar (query_embedding : list float)
    (embeddings : list (list float)) (texts : list string) (top_k : Z)
  : result (list string) :=
  top_indices ← top_indices query_embedding embeddings top_k;
  Py.comprehension (fun i => Py.getitem texts i) top_indices.

(** The default of the parameter [top_k]. *)
Definition default_top_k : Z := 3.

(** The module-level statements: [stored_data = None], then the guarded
    [stored_data = load_embeddings()]. *)
Definition module_init : M unit :=
  _ ← modify (set_stored_data None);
  try_except
    (data ← load_embeddings; modify (set_stored_data (Some data)))
    (mret tt).

Definition get_relevant_context (p : provider) (query : string) : M string :=
  stored ← gets stored_data;
  match stored with
  | None => mret "Error: Embeddings not loaded"%string
  | Some stored_data =>
      model ← Os.getenv "EMBEDDING_MODEL" "text-embedding-3-small";
      query_embedding ← lift (embeddings_create p model query);
      relevant_texts ← lift (find_most_similar query_embedding
                               (embeddings stored_data) (texts stored_data)
                               default_top_k);
      mret (Py.join (String Py.LF (String Py.LF EmptyString)) relevant_texts)
  end.

(** [main] up to the agent set-up. *)
Definition main_startup (p : provider) : M unit :=
  present ← Os.path_exists_embedding_json;
  if present : bool then
    data ← load_embeddings;
    modify (set_stored_data (Some data))
  else
    texts ← load_content;
    embeddings ← create_embeddings p texts;
    _ ← save_embeddings texts embeddings;
    modify (set_stored_data (Some (Store texts embeddings))).

End AgnoQA.

(** ** [src/5_agno_rag.py] *)

Module Rag.

(** [with open("content_data/content.txt", "r") as f]: the lines of the
    file. *)
Definition open_content_txt : M (list string) := fun w =>
  match content_txt w with
  | Some text => (Ok (Py.iter_lines (Py.universal_newlines text)), w)
  | None => (Raise FileNotFoundError, w)
  end.

(** [[line.strip() for line in f if line.strip()]] *)
Fixpoint stripped_lines (f : list string) : list string :=
  match f with
  | [] => []
  | line :: f' =>
      if Py.truthy (Py.strip line)
      then Py.strip line :: stripped_lines f'
      else stripped_lines f'
  end.

Definition load_content : M (list string) :=
  f ← open_content_txt;
  mret (stripped_lines f).

End Rag.

(** ** [src/6_agno_human_loop.py] *)

Module HumanLoop.

(** [with open("content_data/content.txt", "r") as f]: the lines of the
    file. *)
Definition open_content_txt : M (list string) := fun w =>
  match content_txt w with
  | Some text => (Ok (Py.iter_lines (Py.universal_newlines text)), w)
  | None => (Raise FileNotFoundError, w)
  end.

(** [[line.strip() for line in f if line.strip()]] *)
Fixpoint stripped_lines (f : list string) : list string :=
  match f with
  | [] => []
  | line :: f' =>
      if Py.truthy (Py.strip line)
      then Py.strip line :: stripped_lines f'
      else stripped_lines f'
  end.

Definition load_content : M (list string) :=
  f ← open_content_txt;
  mret (stripped_lines f).

End HumanLoop.

(** ** Vocabulary of the specification *)

(** An index is well formed for a query when it has at least one record
    and every stored vector has the dimension of the query. *)
Definition well_formed (query : list float) (embs : list (list float)) : Prop :=
  embs ≠ [] ∧ Forall (fun row => length row = length query) embs.

(** The cosine similarity of one stored vector with the query, as
    [find_most_similar] computes it. *)
Definition cosine (query row : list float) : float :=
  F64.div (Np.inner row query)
          (F64.mul (Np.linalg_norm row) (Np.linalg_norm query)).

(** The score of the record with index [i]. *)
Definition score (sims : list float) (i : nat) : float := nth i sims F64.zero.

(** A total order on floats that agrees with NumPy's sorting order: the
    class of the value first (negative infinity, negative, zero, positive,
    positive infinity, NaN), then exponent and mantissa. *)
Definition key (x : float) : Z * Z * Z :=
  match x with
  | S754_infinity true => (-2, 0, 0)
  | S754_finite true m e => (-1, - e, - Z.pos m)
  | S754_zero _ => (0, 0, 0)
  | S754_finite false m e => (1, e, Z.pos m)
  | S754_infinity false => (2, 0, 0)
  | S754_nan => (3, 0, 0)
  end.

Definition key_lt (a b : Z * Z * Z) : Prop :=
  a.1.1 < b.1.1 ∨
  (a.1.1 = b.1.1 ∧ (a.1.2 < b.1.2 ∨ (a.1.2 = b.1.2 ∧ a.2 < b.2))).

(** Record [i] is ranked before record [j] by an ascending stable sort of
    the scores: a smaller score, or an equal one and a smaller index. *)
Definition precedes (sims : list float) (i j : nat) : Prop :=
  Np.lt (score sims i) (score sims j) = true
  ∨ (Np.lt (score sims j) (score sims i) = false ∧ (i < j)%nat).

(** The order the specification asks of the result: going from an earlier
    to a later position the score never increases, and equal scores come
    in ascending index order. *)
Definition highest_first (sims : list float) (idx : list nat) : Prop :=
  ∀ p p' i j, (p < p')%nat → idx !! p = Some i → idx !! p' = Some j →
    F64.leb (score sims j) (score sims i) = true
    ∧ (F64.eqb (score sims i) (score sims j) = true → (i < j)%nat).

(** What [np.argsort] promises of its result for the scores [v]: a
    permutation of the indices in which no score is followed, anywhere
    later, by a smaller one in NumPy's order.  The order of equal scores
    is left open. *)
Definition argsort_result (v : list float) (perm : list nat) : Prop :=
  perm ≡ₚ seq 0 (length v)
  ∧ StronglySorted (fun i j => Np.lt (score v j) (score v i) = false) perm.

(** The order the code produces: going from an earlier to a later
    position the score never decreases in NumPy's order (NaN last). *)
Definition ascending_scores (sims : list float) (idx : list nat) : Prop :=
  ∀ p p' i j, (p < p')%nat → idx !! p = Some i → idx !! p' = Some j →
    Np.lt (score sims j) (score sims i) = false
    ∧ (F64.is_nan (score sims j) = false →
       F64.leb (score sims i) (score sims j) = true).

(** The texts at the selected indices, in the order of selection. *)
Definition select (texts : list string) (idx : list nat) : list string :=
  map (fun i => nth i texts EmptyString) idx.

(** The fallback the specification asks for: a pair with a zero norm has
    similarity [0.0]. *)
Definition zero_norm_fallback (query : list float)
    (embs : list (list float)) : Prop :=
  ∃ sims, Main.similarities query embs = Ok sims ∧
    ∀ i row s, embs !! i = Some row → sims !! i = Some s →
      F64.is_zero (Np.linalg_norm query) = true
      ∨ F64.is_zero (Np.linalg_norm row) = true →
      s = F64.zero.

(** The cardinality the specification asks for: [min(k, N)] entries, one
    per distinct stored index. *)
Definition selects_min_k_N (query : list float) (embs : list (list float))
    (texts : list string) (k : Z) : Prop :=
  ∃ idx, Main.top_indices query embs k = Ok idx
    ∧ Main.find_most_similar query embs texts k = Ok (select texts idx)
    ∧ length idx = Nat.min (Z.to_nat k) (length embs)
    ∧ NoDup idx
    ∧ Forall (fun i => (i < length embs)%nat) idx.

(** A blank line: empty or whitespace only. *)
Fixpoint is_blank (s : string) : bool :=
  match s with
  | EmptyString => true
  | String c r => Py.isspace c && is_blank r
  end.

Definition nonblank (s : string) : bool := negb (is_blank s).

Definition starts_with_space (s : string) : bool :=
  match s with
  | EmptyString => false
  | String c _ => Py.isspace c
  end.

Fixpoint ends_with_space (s : string) : bool :=
  match s with
  | EmptyString => false
  | String c r =>
      match r with
      | EmptyString => Py.isspace c
      | String _ _ => ends_with_space r
      end
  end.

(** [t] is the whitespace-trimmed version of [line]: [line] is [t] between
    two runs of whitespace, and [t] neither starts nor ends with
    whitespace. *)
Definition trimmed_of (line t : string) : Prop :=
  ∃ pre post, line = (pre ++ t ++ post)%string
    ∧ is_blank pre = true ∧ is_blank post = true
    ∧ starts_with_space t = false ∧ ends_with_space t = false.

(** The lines of a text source, in the order of the source. *)
Definition source_lines (text : string) : list string :=
  Py.iter_lines (Py.universal_newlines text).

(** Two newline characters: the blank line between two texts. *)
Definition blank_line : string := String Py.LF (String Py.LF EmptyString).

(** [s] is the texts [ts] in order, a blank line between consecutive ones
    and nothing else. *)
Inductive blank_line_separated : list string → string → Prop :=
  | bls_nil : blank_line_separated [] EmptyString
  | bls_one t : blank_line_separated [t] t
  | bls_cons t t' ts s :
      blank_line_separated (t' :: ts) s →
      blank_line_separated (t :: t' :: ts) (t ++ blank_line ++ s)%string.

(** All stored vectors have the dimension of the first. *)
Definition same_dimension (embs : list (list float)) : bool :=
  match embs with
  | [] => true
  | r :: rs => forallb (fun r' => Nat.eqb (length r') (length r)) rs
  end.

(** An artifact that breaks the invariants of the index: the two
    sequences differ in length, or the vectors in dimension. *)
Definition malformed (d : store) : bool :=
  negb (Nat.eqb (length (texts d)) (length (embeddings d)))
  || negb (same_dimension (embeddings d)).

(** The check the specification asks of [load]: a malformed artifact makes
    it fail. *)
Definition load_rejects_malformed (w : world) : Prop :=
  ∀ d, embedding_json w = Some (Document d) → malformed d = true →
    ∃ e, (Main.load_embeddings w).1 = Raise e.

(** The embedding model read from the environment. *)
Definition embedding_model (w : world) : string :=
  default "text-embedding-3-small"%string (environ w !! "EMBEDDING_MODEL"%string).

(** The embedding model [answer_question] sends the completion request to. *)
Definition completion_model (w : world) : string :=
  default "gpt-4.1-mini"%string (environ w !! "COMPLETION_MODEL"%string).

(** A computation that leaves the files, the environment and the global
    store as it found them, whatever it returns or raises. *)
Definition read_only {A} (m : M A) : Prop := ∀ w, (m w).2 = w.

(** ** Worked examples: the end-to-end scenario of the specification *)

Definition scenario_texts : list string :=
  ["Microsoft invests $80B in AI"; "Nvidia GPUs power AI training"]%string.
Definition scenario_embeddings : list (list float) :=
  [[F64.one; F64.zero]; [F64.zero; F64.one]].
Definition scenario_query : list float := [F64.one; F64.zero].
Definition zero_query : list float := [F64.zero; F64.zero].

(** A persisted artifact with two texts, one vector of dimension one and
    one of dimension two. *)
Definition ragged_store : store :=
  Store ["a"; "b"; "c"]%string [[F64.one]; [F64.one; F64.zero]].

(** A persisted artifact with three texts for the two vectors of the
    scenario. *)
Definition misaligned_store : store :=
  Store ["a"; "b"; "c"]%string scenario_embeddings.

Definition world_with (j : option json_file) : world :=
  World None true j ∅ None.

Definition scenario_store : store := Store scenario_texts scenario_embeddings.

(** The scenario's store, persisted and loaded. *)
Definition scenario_world : world :=
  World None true (Some (Document scenario_store)) ∅ (Some scenario_store).

(** A provider that embeds every question as the scenario's query. *)
Definition scenario_provider : provider :=
  Provider (fun _ _ => Ok scenario_query) (fun _ _ => Ok "answer"%string).

Definition content_world (text : string) : world :=
  World (Some text) true None ∅ None.

(** The store that [load_embeddings] can read from the store file, if
    any. *)
Definition loadable (w : world) : option store :=
  match embedding_json w with
  | Some (Document d) => Some d
  | _ => None
  end.

(** The character [c] occurs in [s]. *)
Fixpoint contains (c : ascii) (s : string) : bool :=
  match s with
  | EmptyString => false
  | String c' r => Ascii.eqb c' c || contains c r
  end.

(** A line feed occurs in [s] at most as its last character. *)
Fixpoint lf_only_last (s : string) : bool :=
  match s with
  | EmptyString => true
  | String c r =>
      if Ascii.eqb c Py.LF
      then match r with EmptyString => true | String _ _ => false end
      else lf_only_last r
  end.

(** The concatenation of a list of strings. *)
Definition concat_strings (l : list string) : string :=
  fold_right String.append EmptyString l.

(** What the question loop writes for a sequence of answered questions:
    per question the prompt, the progress line and the answer. *)
Definition transcript (answers : list string) : list string :=
  flat_map (fun a => [Main.prompt; Main.finding_answer; Main.answer_line a])
           answers.

(** An embedding service that answers every request with a vector of
    dimension [D]. *)
Definition fixed_dimension (p : provider) (D : nat) : Prop :=
  ∀ model input, ∃ v, embeddings_create p model input = Ok v ∧ length v = D.

(** ** The lines of a text *)

(** A character that ends a line: line feed or carriage return. *)
Definition is_break (c : ascii) : bool :=
  Ascii.eqb c Py.LF || Ascii.eqb c Py.CR.

(** No line break occurs in [s]. *)
Fixpoint no_break (s : string) : bool :=
  match s with
  | EmptyString => true
  | String c r => negb (is_break c) && no_break r
  end.

Definition starts_with_lf (s : string) : bool :=
  match s with
  | EmptyString => false
  | String c _ => Ascii.eqb c Py.LF
  end.

(** [text_lines text ls]: [ls] is the lines of [text] in the order of the
    text.  The text is its lines, none of which contains a line break,
    with one line terminator between consecutive lines: a line feed, a
    carriage return followed by a line feed, or a carriage return that no
    line feed follows.  What follows the last terminator is the last
    line, which may be empty. *)
Inductive text_lines : string → list string → Prop :=
  | tl_last l :
      no_break l = true → text_lines l [l]
  | tl_lf l rest ls :
      no_break l = true → text_lines rest ls →
      text_lines (l ++ String Py.LF rest) (l :: ls)
  | tl_crlf l rest ls :
      no_break l = true → text_lines rest ls →
      text_lines (l ++ String Py.CR (String Py.LF rest)) (l :: ls)
  | tl_cr l rest ls :
      no_break l = true → starts_with_lf rest = false → text_lines rest ls →
      text_lines (l ++ String Py.CR rest) (l :: ls).

(** The lines of a text, computed from its characters. *)
Fixpoint split_lines (s : string) : list string :=
  match s with
  | EmptyString => [EmptyString]
  | String c r =>
      if Ascii.eqb c Py.LF then EmptyString :: split_lines r
      else if Ascii.eqb c Py.CR then
        match r with
        | String c' r' =>
            if Ascii.eqb c' Py.LF then EmptyString :: split_lines r'
            else EmptyString :: split_lines r
        | EmptyString => EmptyString :: split_lines r
        end
      else
        match split_lines r with
        | l :: ls => String c l :: ls
        | [] => [String c EmptyString]
        end
  end.

(** A text of four lines, ended by a carriage return and line feed, a line
    feed and a lone carriage return; its second line is empty. *)
Definition sample_text : string :=
  ("  first line " ++ String Py.CR (String Py.LF (String Py.LF "second"))
     ++ String Py.CR " third ")%string.

Definition sample_lines : list string :=
  ["  first line "; EmptyString; "second"; " third "]%string.

Definition sample_records : list string :=
  ["first line"; "second"; "third"]%string.

(** ** Worked examples for the build path *)

(** A provider whose embedding service fails on the input ["bad"]. *)
Definition failing_provider : provider :=
  Provider (fun _ input => if String.eqb input "bad" then Raise ProviderError
                           else Ok scenario_query)
           (fun _ _ => Ok "answer"%string).

(** A world with a content file, the directory of the store and no store. *)
Definition fresh_world (text : string) : world :=
  World (Some text) true None ∅ None.

(** ** The order NumPy sorts by *)

Lemma lt_key a b : Np.lt a b = true ↔ key_lt (key a) (key b).
Proof.
  unfold Np.lt, F64.ltb, SFltb, key_lt.
  destruct a as [[]|[]| |[] m1 e1], b as [[]|[]| |[] m2 e2]; cbn;
    try (split; [discriminate | lia]); try (split; [lia | reflexivity]);
    try (split; [discriminate | intros; lia]);
    change (Pos.compare_cont Eq m1 m2) with (Pos.compare m1 m2);
    destruct (Z.compare_spec e1 e2), (Pos.compare_spec m1 m2); cbn;
    split; intros; try discriminate; try reflexivity; try lia.
Qed.

Lemma leb_of_not_lt a b :
  Np.lt b a = false → F64.is_nan b = false → F64.leb a b = true.
Proof.
  unfold Np.lt, F64.ltb, F64.leb, SFltb, SFleb.
  destruct a as [[]|[]| |[] m1 e1], b as [[]|[]| |[] m2 e2]; cbn;
    try discriminate; try reflexivity;
    change (Pos.compare_cont Eq m1 m2) with (Pos.compare m1 m2);
    change (Pos.compare_cont Eq m2 m1) with (Pos.compare m2 m1);
    rewrite (Z.compare_antisym e1 e2), (Pos.compare_antisym m1 m2);
    destruct (e1 ?= e2), (m1 ?= m2)%positive; cbn;
    try discriminate; reflexivity.
Qed.

Lemma eqb_not_lt a b : F64.eqb a b = true → Np.lt a b = false.
Proof.
  unfold Np.lt, F64.ltb, F64.eqb, SFltb, SFeqb.
  destruct a as [[]|[]| |[] m1 e1], b as [[]|[]| |[] m2 e2]; cbn;
    try discriminate; try reflexivity;
    destruct (e1 ?= e2), (Pos.compare_cont Eq m1 m2); cbn;
    try discriminate; reflexivity.
Qed.

Lemma lt_irrefl a : Np.lt a a = false.
Proof.
  destruct (Np.lt a a) eqn:E; [|done].
  apply lt_key in E. unfold key_lt in E. lia.
Qed.

Lemma precedes_key sims i j :
  precedes sims i j ↔
    key_lt (key (score sims i)) (key (score sims j))
    ∨ (¬ key_lt (key (score sims j)) (key (score sims i)) ∧ (i < j)%nat).
Proof.
  unfold precedes. rewrite lt_key, <- not_true_iff_false, lt_key. tauto.
Qed.

Lemma precedes_trans sims i j k :
  precedes sims i j → precedes sims j k → precedes sims i k.
Proof.
  rewrite !precedes_key.
  destruct (key (score sims i)) as [[a1 a2] a3],
           (key (score sims j)) as [[b1 b2] b3],
           (key (score sims k)) as [[c1 c2] c3].
  unfold key_lt; cbn. lia.
Qed.

#[global] Instance precedes_transitive sims : Transitive (precedes sims).
Proof. intros i j k. apply precedes_trans. Qed.

(** ** [np.argsort] *)

Lemma insert_perm v i l : Np.insert v i l ≡ₚ i :: l.
Proof.
  induction l as [|j l IH]; cbn; [done|].
  destruct (Np.lt _ _); [|done].
  rewrite IH. apply Permutation_swap.
Qed.

Lemma insert_sorted v i l :
  Forall (fun j => (i < j)%nat) l →
  StronglySorted (precedes v) l →
  StronglySorted (precedes v) (Np.insert v i l).
Proof.
  induction l as [|j l IH]; intros Hlt Hs; cbn.
  - repeat constructor.
  - apply Forall_cons in Hlt as [Hij Hlt].
    apply StronglySorted_cons in Hs as [Hj Hs].
    destruct (Np.lt (nth j v F64.zero) (nth i v F64.zero)) eqn:E.
    + apply StronglySorted_cons. split; [|by apply IH].
      rewrite insert_perm. apply Forall_cons. split; [|done].
      by left.
    + assert (precedes v i j) as Hp by (by right).
      apply StronglySorted_cons. split.
      * apply Forall_cons. split; [done|].
        eapply Forall_impl; [exact Hj|].
        intros k Hk. by etrans.
      * by apply StronglySorted_cons.
Qed.

Lemma argsort_from_perm v a n :
  fold_right (Np.insert v) [] (seq a n) ≡ₚ seq a n.
Proof.
  revert a. induction n as [|n IH]; intros a; cbn; [done|].
  by rewrite insert_perm, IH.
Qed.

Lemma argsort_from_sorted v a n :
  StronglySorted (precedes v) (fold_right (Np.insert v) [] (seq a n)).
Proof.
  revert a. induction n as [|n IH]; intros a; cbn; [constructor|].
  apply insert_sorted; [|apply IH].
  rewrite argsort_from_perm. apply Forall_forall.
  intros j Hj. apply elem_of_seq in Hj. lia.
Qed.

Lemma argsort_perm v : Np.argsort v ≡ₚ seq 0 (length v).
Proof. apply argsort_from_perm. Qed.

Lemma argsort_sorted v : StronglySorted (precedes v) (Np.argsort v).
Proof. apply argsort_from_sorted. Qed.

Lemma argsort_length v : length (Np.argsort v) = length v.
Proof. by rewrite argsort_perm, length_seq. Qed.

Lemma argsort_NoDup v : NoDup (Np.argsort v).
Proof. rewrite argsort_perm. apply NoDup_seq. Qed.

Lemma argsort_bound v i : i ∈ Np.argsort v → (i < length v)%nat.
Proof. rewrite argsort_perm, elem_of_seq. lia. Qed.

(** ** Slicing *)

Lemma slice_from_neg {A} (l : list A) (k : Z) :
  1 ≤ k →
  Py.slice_from l (- k) = drop (length l - Z.to_nat k) l.
Proof.
  intros Hk. unfold Py.slice_from.
  destruct (Z.ltb_spec (- k) 0); [|lia].
  f_equal. lia.
Qed.

Lemma slice_from_neg_length {A} (l : list A) (k : Z) :
  1 ≤ k →
  length (Py.slice_from l (- k)) = Nat.min (Z.to_nat k) (length l).
Proof. intros Hk. rewrite slice_from_neg, length_drop by done. lia. Qed.

Lemma StronglySorted_drop {A} (R : relation A) n l :
  StronglySorted R l → StronglySorted R (drop n l).
Proof.
  intros Hs. rewrite <- (take_drop n l) in Hs.
  by apply StronglySorted_app_1_r in Hs.
Qed.

Lemma NoDup_drop {A} n (l : list A) : NoDup l → NoDup (drop n l).
Proof.
  intros Hs. rewrite <- (take_drop n l) in Hs.
  by apply NoDup_app in Hs as (_ & _ & ?).
Qed.

Lemma StronglySorted_lookup {A} (R : relation A) l p p' x y :
  StronglySorted R l → (p < p')%nat →
  l !! p = Some x → l !! p' = Some y → R x y.
Proof.
  intros Hs. revert p p'.
  induction Hs as [|a l Hs IH Ha]; intros p p' Hlt Hx Hy; [done|].
  destruct p' as [|p']; [lia|]. cbn in Hy.
  destruct p as [|p]; cbn in Hx.
  - injection Hx as ->. eapply Forall_forall; [exact Ha|].
    by eapply list_elem_of_lookup_2.
  - eapply IH; [|done..]. lia.
Qed.

(** What the slice keeps of any ascending argsort, stable or not: for a
    permutation of the indices in which no score is followed by a smaller
    one, the last [k] entries are [min(k, N)] distinct indices, still in
    ascending order of score. *)
Section AnyArgsort.
Variable sims : list float.
Variable perm : list nat.
Hypothesis perm_indices : perm ≡ₚ seq 0 (length sims).
Hypothesis perm_ascending :
  StronglySorted (fun i j => Np.lt (score sims j) (score sims i) = false) perm.

Lemma any_argsort_slice k :
  1 ≤ k →
  length (Py.slice_from perm (- k)) = Nat.min (Z.to_nat k) (length sims)
  ∧ NoDup (Py.slice_from perm (- k))
  ∧ ∀ p p' i j, (p < p')%nat →
      Py.slice_from perm (- k) !! p = Some i →
      Py.slice_from perm (- k) !! p' = Some j →
      Np.lt (score sims j) (score sims i) = false.
Proof.
  intros Hk. split_and!.
  - by rewrite slice_from_neg_length, perm_indices, length_seq.
  - unfold Py.slice_from. apply NoDup_drop.
    rewrite perm_indices. apply NoDup_seq.
  - intros p p' i j Hlt Hi Hj.
    assert (StronglySorted
              (fun i j => Np.lt (score sims j) (score sims i) = false)
              (Py.slice_from perm (- k))) as Hs.
    { unfold Py.slice_from. by apply StronglySorted_drop. }
    exact (StronglySorted_lookup _ _ _ _ _ _ Hs Hlt Hi Hj).
Qed.
End AnyArgsort.

(** ** The similarities *)

Lemma array_ok q embs :
  well_formed q embs → Np.array embs = Ok (Np.Arr2 (length q) embs).
Proof.
  intros [Hne Hall]. destruct embs as [|r rs]; [done|]. cbn.
  apply Forall_cons in Hall as [Hr Hrs].
  rewrite (proj2 (forallb_forall _ rs)).
  - by rewrite Hr.
  - intros r' Hin. apply Nat.eqb_eq. rewrite Hr.
    eapply Forall_forall in Hrs; [exact Hrs|]. by apply list_elem_of_In.
Qed.

Lemma array_inv embs a :
  Np.array embs = Ok a →
  (embs = [] ∧ a = Np.Arr1 [])
  ∨ (∃ d, a = Np.Arr2 d embs ∧ embs ≠ [] ∧ Forall (fun r => length r = d) embs).
Proof.
  destruct embs as [|r rs]; cbn.
  - intros [= <-]. by left.
  - destruct (forallb _ rs) eqn:E; [|done].
    intros [= <-]. right. exists (length r). split_and!; [done..|].
    apply Forall_cons. split; [done|].
    apply Forall_forall. intros r' Hin.
    rewrite forallb_forall in E. apply Nat.eqb_eq, E. by apply list_elem_of_In.
Qed.

Lemma map_div_combine {A} (f g : A → float) l :
  map (fun p => F64.div p.1 p.2) (combine (map f l) (map g l))
  = map (fun x => F64.div (f x) (g x)) l.
Proof. induction l as [|x l IH]; cbn; [done|]. by rewrite IH. Qed.

Lemma similarities_ok q embs :
  well_formed q embs → Main.similarities q embs = Ok (map (cosine q) embs).
Proof.
  intros Hwf. unfold Main.similarities.
  rewrite (array_ok _ _ Hwf). cbn.
  rewrite Nat.eqb_refl. cbn. unfold Np.divide1, Np.scale.
  rewrite !length_map, Nat.eqb_refl, map_map.
  by rewrite (map_div_combine (fun r => Np.inner r q)
                (fun r => F64.mul (Np.linalg_norm r) (Np.linalg_norm q))).
Qed.

Lemma similarities_inv q embs sims :
  Main.similarities q embs = Ok sims →
  well_formed q embs ∧ sims = map (cosine q) embs.
Proof.
  intros H. assert (well_formed q embs) as Hwf.
  { unfold Main.similarities in H.
    destruct (Np.array embs) as [a|] eqn:Ea; [|done].
    apply array_inv in Ea as [[-> ->]|(d & -> & Hne & Hall)]; cbn in H.
    - by destruct (length q).
    - destruct (Nat.eqb_spec d (length q)) as [->|]; [|done].
      by split. }
  split; [done|]. rewrite similarities_ok in H by done. by injection H.
Qed.

Lemma similarities_empty q :
  Main.similarities q [] = Raise (match q with [] => AxisError | _ => ValueError end).
Proof. by destruct q. Qed.

Lemma similarities_length q embs sims :
  Main.similarities q embs = Ok sims → length sims = length embs.
Proof. intros [_ ->]%similarities_inv. apply length_map. Qed.

(** ** The selected indices *)

Lemma top_indices_ok q embs k :
  well_formed q embs → 1 ≤ k →
  Main.top_indices q embs k
  = Ok (drop (length embs - Z.to_nat k) (Np.argsort (map (cosine q) embs))).
Proof.
  intros Hwf Hk. unfold Main.top_indices.
  rewrite similarities_ok by done. cbn.
  by rewrite slice_from_neg, argsort_length, length_map.
Qed.

Lemma top_indices_sorted q embs k sims idx :
  Main.similarities q embs = Ok sims →
  Main.top_indices q embs k = Ok idx →
  StronglySorted (precedes sims) idx ∧ NoDup idx
  ∧ Forall (fun i => (i < length embs)%nat) idx.
Proof.
  intros Hs Hi. unfold Main.top_indices in Hi. rewrite Hs in Hi. cbn in Hi.
  injection Hi as <-. unfold Py.slice_from. split_and!.
  - apply StronglySorted_drop, argsort_sorted.
  - apply NoDup_drop, argsort_NoDup.
  - apply Forall_drop, Forall_forall. intros i Hi.
    apply argsort_bound in Hi. by rewrite <- (similarities_length _ _ _ Hs).
Qed.

(** The selection is a top-k: every stored index that is left out ranks
    before every selected one. *)
Lemma top_indices_are_highest q embs k sims idx i j :
  Main.similarities q embs = Ok sims →
  Main.top_indices q embs k = Ok idx →
  (i < length embs)%nat → i ∉ idx → j ∈ idx → precedes sims i j.
Proof.
  intros Hs Hi Hlt Hni Hj. unfold Main.top_indices in Hi.
  rewrite Hs in Hi. cbn in Hi. injection Hi as <-.
  unfold Py.slice_from in *.
  set (n := Z.to_nat _) in *.
  pose proof (argsort_sorted sims) as Hsorted.
  rewrite <- (take_drop n (Np.argsort sims)) in Hsorted.
  eapply StronglySorted_app_1_elem_of; [exact Hsorted| |exact Hj].
  assert (i ∈ Np.argsort sims) as Hin.
  { rewrite argsort_perm, elem_of_seq, (similarities_length _ _ _ Hs). lia. }
  rewrite <- (take_drop n (Np.argsort sims)), elem_of_app in Hin.
  by destruct Hin.
Qed.

Lemma comprehension_getitem {A} (d : A) (l : list A) idx :
  Forall (fun i => (i < length l)%nat) idx →
  Py.comprehension (fun i => Py.getitem l i) idx
  = Ok (map (fun i => nth i l d) idx).
Proof.
  induction 1 as [|i idx Hi _ IH]; [done|].
  cbn [Py.comprehension map]. rewrite IH. unfold Py.getitem.
  destruct (lookup_lt_is_Some_2 l i Hi) as [x Hx]. rewrite Hx. cbn.
  do 2 f_equal. symmetry. by apply nth_lookup_Some with (d := d).
Qed.

Lemma agno_similarities_eq : AgnoQA.similarities = Main.similarities.
Proof. reflexivity. Qed.

Lemma agno_top_indices_eq : AgnoQA.top_indices = Main.top_indices.
Proof. reflexivity. Qed.

Lemma agno_find_most_similar_eq :
  AgnoQA.find_most_similar = Main.find_most_similar.
Proof. reflexivity. Qed.

(** ** Ordering of the result *)

(** C1, counterexample: on the end-to-end scenario of the specification
    with [k = 2] the code returns the record of score [0.0] before the
    record of score [1.0], so the result is not ordered highest first. *)
Lemma scenario_not_highest_first :
  ∃ sims idx,
    Main.similarities scenario_query scenario_embeddings = Ok sims
    ∧ Main.top_indices scenario_query scenario_embeddings 2 = Ok idx
    ∧ Main.find_most_similar scenario_query scenario_embeddings
        scenario_texts 2
      = Ok ["Nvidia GPUs power AI training"; "Microsoft invests $80B in AI"]%string
    ∧ ¬ highest_first sims idx.
Proof.
  exists [F64.one; F64.zero], [1%nat; 0%nat].
  split_and!; [by vm_compute..|].
  intros H. destruct (H 0%nat 1%nat 1%nat 0%nat) as [Hle _]; [lia|done..|].
  vm_compute in Hle. discriminate.
Qed.

Lemma StronglySorted_weaken {A} (R R' : relation A) l :
  (∀ x y, R x y → R' x y) → StronglySorted R l → StronglySorted R' l.
Proof.
  intros HR. induction 1 as [|x l _ IH Hx]; constructor; [done|].
  eapply Forall_impl; [exact Hx|]. intros y. apply HR.
Qed.

Lemma precedes_no_larger_before sims i j :
  precedes sims i j → Np.lt (score sims j) (score sims i) = false.
Proof.
  intros [Hp|[Hp _]]; [|done].
  apply not_true_iff_false. rewrite lt_key. apply lt_key in Hp.
  revert Hp. unfold key_lt.
  destruct (key (score sims i)) as [[] ?], (key (score sims j)) as [[] ?].
  cbn. lia.
Qed.

(** The order computed by [Np.argsort] is one that [np.argsort] may
    return. *)
Lemma argsort_is_result v : argsort_result v (Np.argsort v).
Proof.
  split; [apply argsort_perm|].
  eapply StronglySorted_weaken; [|apply argsort_sorted].
  apply precedes_no_larger_before.
Qed.

(** Whatever [np.argsort] returns, a slice of it is in ascending order of
    score. *)
Lemma result_slice_ascending sims perm start :
  argsort_result sims perm →
  ascending_scores sims (Py.slice_from perm start).
Proof.
  intros [_ Hsorted] p p' i j Hlt Hi Hj.
  assert (StronglySorted
            (fun i j => Np.lt (score sims j) (score sims i) = false)
            (Py.slice_from perm start)) as Hs.
  { unfold Py.slice_from. by apply StronglySorted_drop. }
  pose proof (StronglySorted_lookup _ _ _ _ _ _ Hs Hlt Hi Hj) as Hji.
  split; [done|]. intros Hnan. by apply leb_of_not_lt.
Qed.

(** The promise of [np.argsort] does not fix the order of equal scores:
    for two records of score [1.0] both orders of the indices meet it. *)
Lemma equal_scores_either_order :
  argsort_result [F64.one; F64.one] [0; 1]%nat
  ∧ argsort_result [F64.one; F64.one] [1; 0]%nat.
Proof.
  split; (split; [|repeat constructor]).
  - done.
  - apply Permutation_swap.
Qed.

(** C1, amended: for an index of [N >= 1] records, a query of the stored
    dimension and [k >= 1], [find_most_similar] returns the texts of the
    selected indices ordered by score lowest first: from the first
    returned record to the last the score never decreases in NumPy's
    sorting order (NaN last), so the best match comes last.  This holds
    for every order that [np.argsort] may give to equal scores; in which
    order records of equal score appear is not fixed. *)
Theorem find_most_similar_lowest_first q embs texts k :
  well_formed q embs → length texts = length embs → 1 ≤ k →
  ∃ sims idx,
    Main.similarities q embs = Ok sims
    ∧ Main.top_indices q embs k = Ok idx
    ∧ Main.find_most_similar q embs texts k = Ok (select texts idx)
    ∧ AgnoQA.find_most_similar q embs texts k = Ok (select texts idx)
    ∧ ascending_scores sims idx
    ∧ ∀ perm, argsort_result sims perm →
        length (Py.slice_from perm (- k)) = Nat.min (Z.to_nat k) (length embs)
        ∧ ascending_scores sims (Py.slice_from perm (- k)).
Proof.
  intros Hwf Hlen Hk.
  pose proof (similarities_ok _ _ Hwf) as Hs.
  pose proof (top_indices_ok _ _ _ Hwf Hk) as Hi.
  destruct (top_indices_sorted _ _ _ _ _ Hs Hi) as (Hsorted & _ & Hbound).
  eexists _, _. split_and!; [exact Hs|exact Hi| | | |].
  - unfold Main.find_most_similar. rewrite Hi. cbn.
    apply comprehension_getitem. by rewrite Hlen.
  - rewrite agno_find_most_similar_eq.
    unfold Main.find_most_similar. rewrite Hi. cbn.
    apply comprehension_getitem. by rewrite Hlen.
  - intros p p' i j Hlt Hpi Hpj.
    pose proof (StronglySorted_lookup _ _ _ _ _ _ Hsorted Hlt Hpi Hpj) as Hp.
    apply precedes_no_larger_before in Hp.
    split; [done|]. intros Hnan. by apply leb_of_not_lt.
  - intros perm Hperm. split; [|by apply result_slice_ascending].
    destruct Hperm as [Hperm _].
    by rewrite slice_from_neg_length, Hperm, length_seq, length_map.
Qed.

Lemma find_most_similar_lowest_first_witness :
  ∃ sims idx,
    Main.similarities scenario_query scenario_embeddings = Ok sims
    ∧ Main.top_indices scenario_query scenario_embeddings 2 = Ok idx
    ∧ Main.find_most_similar scenario_query scenario_embeddings
        scenario_texts 2 = Ok (select scenario_texts idx)
    ∧ AgnoQA.find_most_similar scenario_query scenario_embeddings
        scenario_texts 2 = Ok (select scenario_texts idx)
    ∧ ascending_scores sims idx
    ∧ ∀ perm, argsort_result sims perm →
        length (Py.slice_from perm (- 2))
        = Nat.min (Z.to_nat 2) (length scenario_embeddings)
        ∧ ascending_scores sims (Py.slice_from perm (- 2)).
Proof.
  apply (find_most_similar_lowest_first scenario_query scenario_embeddings
           scenario_texts 2).
  - split; [discriminate|]. repeat constructor.
  - reflexivity.
  - lia.
Defined.

(** ** Zero norms *)

Lemma div_zero_product x a b :
  F64.is_zero a = true ∨ F64.is_zero b = true →
  F64.is_finite (F64.div x (F64.mul a b)) = false.
Proof.
  intros [H|H]; destruct a as [?|?| |? ? ?], b as [?|?| |? ? ?];
    try discriminate; cbn; destruct x; reflexivity.
Qed.

(** C2, counterexample: for the zero query the similarity with each stored
    vector of the scenario is NaN, not [0.0]. *)
Lemma zero_query_not_fallback :
  ¬ zero_norm_fallback zero_query scenario_embeddings.
Proof.
  intros (sims & Hs & H).
  assert (sims = [S754_nan; S754_nan]) as ->.
  { vm_compute in Hs. by injection Hs. }
  specialize (H 0%nat [F64.one; F64.zero] S754_nan eq_refl eq_refl).
  discriminate H. left. by vm_compute.
Qed.

(** C2, amended: for an index of [N >= 1] records and a query of the
    stored dimension the similarities are computed without raising, and
    for every pair in which the norm of the query or of the stored vector
    is zero the similarity is not a finite number: it is NaN or an
    infinity, never [0.0]. *)
Theorem zero_norm_similarity_not_finite q embs :
  well_formed q embs →
  ∃ sims, Main.similarities q embs = Ok sims ∧
    ∀ i row, embs !! i = Some row →
      F64.is_zero (Np.linalg_norm q) = true
      ∨ F64.is_zero (Np.linalg_norm row) = true →
      ∃ s, sims !! i = Some s ∧ F64.is_finite s = false ∧ s ≠ F64.zero.
Proof.
  intros Hwf. exists (map (cosine q) embs).
  split; [by apply similarities_ok|].
  intros i row Hrow Hz. exists (cosine q row).
  assert (F64.is_finite (cosine q row) = false) as Hfin.
  { apply div_zero_product. tauto. }
  split_and!; [|done|].
  - change (map (cosine q) embs) with (cosine q <$> embs).
    by rewrite list_lookup_fmap, Hrow.
  - intros Heq. by rewrite Heq in Hfin.
Qed.

Lemma zero_norm_similarity_not_finite_witness :
  ∃ sims, Main.similarities zero_query scenario_embeddings = Ok sims ∧
    ∀ i row, scenario_embeddings !! i = Some row →
      F64.is_zero (Np.linalg_norm zero_query) = true
      ∨ F64.is_zero (Np.linalg_norm row) = true →
      ∃ s, sims !! i = Some s ∧ F64.is_finite s = false ∧ s ≠ F64.zero.
Proof.
  apply (zero_norm_similarity_not_finite zero_query scenario_embeddings).
  split; [discriminate|]. repeat constructor.
Defined.

(** ** The empty store *)

(** C3, counterexample: on the empty store with the default [k = 3] the
    code raises [ValueError] instead of returning the empty list. *)
Lemma empty_store_raises :
  Main.find_most_similar scenario_query [] [] Main.default_top_k
  = Raise ValueError
  ∧ Main.find_most_similar scenario_query [] [] Main.default_top_k ≠ Ok [].
Proof. split; [reflexivity|discriminate]. Qed.

(** C3, amended: for every [k], every query vector and every list of
    texts, [find_most_similar] on a store without vectors raises:
    [ValueError] from [np.dot] when the query has at least one component,
    [AxisError] from [np.linalg.norm(..., axis=1)] when it has none.  No
    result is returned. *)
Theorem find_most_similar_empty_store q texts k :
  Main.find_most_similar q [] texts k
  = Raise (match q with [] => AxisError | _ => ValueError end)
  ∧ AgnoQA.find_most_similar q [] texts k
    = Raise (match q with [] => AxisError | _ => ValueError end).
Proof. by destruct q. Qed.

(** ** Cardinality of the result *)

(** C6, counterexample: with [N = 0] stored records the code raises, so
    there is no result with [min(k, 0) = 0] entries. *)
Lemma empty_store_no_selection :
  ¬ selects_min_k_N [F64.one] [] [] 1.
Proof. intros (idx & H & _). discriminate H. Qed.

(** C6, amended: for an index of [N >= 1] records, a query of the stored
    dimension and [k >= 1], the result of [find_most_similar] has exactly
    [min(k, N)] entries, the texts of pairwise distinct stored indices;
    when [k >= N] the selected indices are all [N] of them. *)
Theorem find_most_similar_cardinality q embs texts k :
  well_formed q embs → length texts = length embs → 1 ≤ k →
  selects_min_k_N q embs texts k
  ∧ ∀ idx r, Main.top_indices q embs k = Ok idx →
      Main.find_most_similar q embs texts k = Ok r →
      length r = Nat.min (Z.to_nat k) (length embs)
      ∧ (Z.of_nat (length embs) ≤ k → idx ≡ₚ seq 0 (length embs)).
Proof.
  intros Hwf Hlen Hk.
  pose proof (similarities_ok _ _ Hwf) as Hs.
  pose proof (top_indices_ok _ _ _ Hwf Hk) as Hi.
  destruct (top_indices_sorted _ _ _ _ _ Hs Hi) as (_ & Hnd & Hbound).
  assert (Main.find_most_similar q embs texts k
          = Ok (select texts
                  (drop (length embs - Z.to_nat k)
                     (Np.argsort (map (cosine q) embs))))) as Hf.
  { unfold Main.find_most_similar. rewrite Hi. cbn.
    apply comprehension_getitem. by rewrite Hlen. }
  assert (length (drop (length embs - Z.to_nat k)
                    (Np.argsort (map (cosine q) embs)))
          = Nat.min (Z.to_nat k) (length embs)) as Hcard.
  { rewrite length_drop, argsort_length, length_map. lia. }
  split.
  - eexists. split_and!; [exact Hi|exact Hf|exact Hcard|exact Hnd|exact Hbound].
  - intros idx r Hi' Hr. rewrite Hi in Hi'. injection Hi' as <-.
    rewrite Hf in Hr. injection Hr as <-. split.
    + unfold select. by rewrite length_map.
    + intros HkN. replace (length embs - Z.to_nat k)%nat with 0%nat by lia.
      cbn. by rewrite argsort_perm, length_map.
Qed.

Lemma find_most_similar_cardinality_witness :
  selects_min_k_N scenario_query scenario_embeddings scenario_texts 3
  ∧ ∀ idx r, Main.top_indices scenario_query scenario_embeddings 3 = Ok idx →
      Main.find_most_similar scenario_query scenario_embeddings
        scenario_texts 3 = Ok r →
      length r = Nat.min (Z.to_nat 3) (length scenario_embeddings)
      ∧ (Z.of_nat (length scenario_embeddings) ≤ 3 →
         idx ≡ₚ seq 0 (length scenario_embeddings)).
Proof.
  apply (find_most_similar_cardinality scenario_query scenario_embeddings
           scenario_texts 3).
  - split; [discriminate|]. repeat constructor.
  - reflexivity.
  - lia.
Defined.

(** ** The selection does not depend on the texts *)

Lemma comprehension_cons {A B} (f : A → result B) x l :
  Py.comprehension f (x :: l)
  = match f x with
    | Ok y => match Py.comprehension f l with
              | Ok ys => Ok (y :: ys)
              | Raise e => Raise e
              end
    | Raise e => Raise e
    end.
Proof. reflexivity. Qed.

Lemma comprehension_getitem_inv {A} (l : list A) idx r :
  Py.comprehension (fun i => Py.getitem l i) idx = Ok r →
  Forall (fun i => (i < length l)%nat) idx.
Proof.
  revert r. induction idx as [|i idx IH]; intros r H; [constructor|].
  rewrite comprehension_cons in H. unfold Py.getitem at 1 in H.
  destruct (l !! i) as [x|] eqn:Hx; [|done].
  destruct (Py.comprehension _ idx) as [ys|] eqn:Hys; [|done].
  constructor; [by eapply lookup_lt_Some|by eapply IH].
Qed.

(** With lists of one length, indexing fails at the same place. *)
Lemma comprehension_getitem_raise {A} (l1 l2 : list A) idx e :
  length l1 = length l2 →
  Py.comprehension (fun i => Py.getitem l1 i) idx = Raise e →
  Py.comprehension (fun i => Py.getitem l2 i) idx = Raise e.
Proof.
  intros Hlen. revert e. induction idx as [|i idx IH]; intros e H; [done|].
  rewrite comprehension_cons in *. unfold Py.getitem at 1 in H.
  unfold Py.getitem at 1.
  destruct (l1 !! i) as [x|] eqn:H1.
  - destruct (lookup_lt_is_Some_2 l2 i) as [y ->].
    { rewrite <- Hlen. by eapply lookup_lt_Some. }
    destruct (Py.comprehension _ idx) as [?|e1] eqn:E1 in H; [done|].
    injection H as <-. by rewrite (IH e1).
  - rewrite (lookup_ge_None_2 l2 i); [done|].
    rewrite <- Hlen. by apply lookup_ge_None_1.
Qed.

(** C10: the indices [find_most_similar] selects are a function of the
    query vector, the stored vectors and [k] alone.  With the same query
    and stored vectors and two text lists of equal length, both runs
    select the same indices: when one run returns, so does the other, and
    each returns the texts of its own list at those positions.  Two runs
    on identical inputs return identical outputs. *)
Theorem selection_independent_of_texts q embs texts1 texts2 k :
  (length texts1 = length texts2 →
   ∀ r1, Main.find_most_similar q embs texts1 k = Ok r1 →
     ∃ idx, Main.top_indices q embs k = Ok idx
       ∧ r1 = select texts1 idx
       ∧ Main.find_most_similar q embs texts2 k = Ok (select texts2 idx)
       ∧ AgnoQA.find_most_similar q embs texts2 k = Ok (select texts2 idx))
  ∧ (length texts1 = length texts2 →
     ∀ e, Main.find_most_similar q embs texts1 k = Raise e →
          Main.find_most_similar q embs texts2 k = Raise e)
  ∧ (texts1 = texts2 →
     Main.find_most_similar q embs texts1 k
     = Main.find_most_similar q embs texts2 k).
Proof.
  split_and!.
  - intros Hlen r1 Hr1. unfold Main.find_most_similar in Hr1.
    destruct (Main.top_indices q embs k) as [idx|] eqn:Hi; [|done].
    cbn in Hr1. exists idx.
    pose proof (comprehension_getitem_inv _ _ _ Hr1) as Hb.
    rewrite (comprehension_getitem EmptyString) in Hr1 by done.
    injection Hr1 as <-.
    assert (Main.find_most_similar q embs texts2 k = Ok (select texts2 idx)).
    { unfold Main.find_most_similar. rewrite Hi. cbn.
      apply comprehension_getitem. by rewrite <- Hlen. }
    split_and!; [done..|]. by rewrite agno_find_most_similar_eq.
  - intros Hlen e He. unfold Main.find_most_similar in *.
    destruct (Main.top_indices q embs k) as [idx|] eqn:Hi; [|done].
    cbn in *. by apply (comprehension_getitem_raise texts1).
  - by intros ->.
Qed.

Lemma selection_independent_of_texts_witness :
  ∃ idx, Main.top_indices scenario_query scenario_embeddings 1 = Ok idx
    ∧ ["Microsoft invests $80B in AI"]%string = select scenario_texts idx
    ∧ Main.find_most_similar scenario_query scenario_embeddings
        ["first"; "second"]%string 1
      = Ok (select ["first"; "second"]%string idx)
    ∧ AgnoQA.find_most_similar scenario_query scenario_embeddings
        ["first"; "second"]%string 1
      = Ok (select ["first"; "second"]%string idx).
Proof.
  apply (proj1 (selection_independent_of_texts scenario_query
                  scenario_embeddings scenario_texts
                  ["first"; "second"]%string 1)); reflexivity.
Defined.

(** ** The embedding store *)

Lemma same_dimension_false q embs texts k :
  same_dimension embs = false →
  Main.find_most_similar q embs texts k = Raise ValueError.
Proof.
  intros H. unfold Main.find_most_similar, Main.top_indices, Main.similarities.
  destruct embs as [|r rs]; [done|]. cbn in *. by rewrite H.
Qed.

(** C4, counterexample: an artifact with three texts and two vectors of
    different dimensions is loaded without any failure, and an artifact
    with three texts for two vectors is loaded and searched without any
    failure. *)
Lemma ragged_store_is_loaded :
  malformed ragged_store = true
  ∧ Main.load_embeddings (world_with (Some (Document ragged_store)))
    = (Ok ragged_store, world_with (Some (Document ragged_store)))
  ∧ ¬ load_rejects_malformed (world_with (Some (Document ragged_store)))
  ∧ malformed misaligned_store = true
  ∧ (Main.relevant_context scenario_provider "Who invests in AI?"
       (world_with (Some (Document misaligned_store)))).1
    = Ok ("b" ++ blank_line ++ "a")%string.
Proof.
  split_and!; [reflexivity..| |reflexivity|by vm_compute].
  intros H. destruct (H ragged_store eq_refl eq_refl) as [e He].
  discriminate He.
Qed.

(** C4, amended: [load_embeddings] makes no check.  For every persisted
    JSON artifact, also one whose texts and embeddings differ in length or
    whose vectors differ in dimension, it returns the artifact unchanged
    and leaves the world as it was; vectors of different dimensions are
    detected at search time only, where [find_most_similar] raises
    [ValueError]. *)
Theorem load_embeddings_no_validation w d :
  embedding_json w = Some (Document d) →
  Main.load_embeddings w = (Ok d, w)
  ∧ AgnoQA.load_embeddings w = (Ok d, w)
  ∧ (same_dimension (embeddings d) = false →
     ∀ q k, Main.find_most_similar q (embeddings d) (texts d) k
            = Raise ValueError
          ∧ AgnoQA.find_most_similar q (embeddings d) (texts d) k
            = Raise ValueError).
Proof.
  intros Hw. unfold Main.load_embeddings, AgnoQA.load_embeddings.
  rewrite Hw. split_and!; [done..|].
  intros Hd q k. rewrite agno_find_most_similar_eq.
  split; by apply same_dimension_false.
Qed.

Lemma load_embeddings_no_validation_witness :
  Main.load_embeddings (world_with (Some (Document ragged_store)))
  = (Ok ragged_store, world_with (Some (Document ragged_store)))
  ∧ AgnoQA.load_embeddings (world_with (Some (Document ragged_store)))
    = (Ok ragged_store, world_with (Some (Document ragged_store)))
  ∧ (same_dimension (embeddings ragged_store) = false →
     ∀ q k, Main.find_most_similar q (embeddings ragged_store)
              (texts ragged_store) k = Raise ValueError
          ∧ AgnoQA.find_most_similar q (embeddings ragged_store)
              (texts ragged_store) k = Raise ValueError).
Proof.
  apply (load_embeddings_no_validation
           (world_with (Some (Document ragged_store))) ragged_store).
  reflexivity.
Defined.

(** C5: when the directory of the store exists, [save_embeddings(texts,
    vectors)] succeeds and [load_embeddings()] afterwards returns the dict
    with exactly those texts and those vectors, for every pair of
    sequences (aligned or not).  The floats are the ones saved: the model
    keeps the JSON document, not its decimal text. *)
Theorem load_after_save ts vs w :
  embedding_data_dir w = true →
  ∃ w', Main.save_embeddings ts vs w = (Ok tt, w')
    ∧ AgnoQA.save_embeddings ts vs w = (Ok tt, w')
    ∧ Main.load_embeddings w' = (Ok (Store ts vs), w')
    ∧ AgnoQA.load_embeddings w' = (Ok (Store ts vs), w')
    ∧ (_ ← Main.save_embeddings ts vs; Main.load_embeddings) w
      = (Ok (Store ts vs), w')
    ∧ ∀ d, (Main.load_embeddings w').1 = Ok d →
           texts d = ts ∧ embeddings d = vs.
Proof.
  intros Hdir. exists (set_embedding_json (Some (Document (Store ts vs))) w).
  assert (Main.save_embeddings ts vs w
          = (Ok tt, set_embedding_json (Some (Document (Store ts vs))) w)) as Hs.
  { unfold Main.save_embeddings, mbind, M_bind, gets. by rewrite Hdir. }
  split_and!; [exact Hs|exact Hs|done|done| |].
  - unfold mbind, M_bind. by rewrite Hs.
  - cbn. by intros d [= <-].
Qed.

Lemma load_after_save_witness :
  ∃ w', Main.save_embeddings scenario_texts scenario_embeddings
          (world_with None) = (Ok tt, w')
    ∧ AgnoQA.save_embeddings scenario_texts scenario_embeddings
          (world_with None) = (Ok tt, w')
    ∧ Main.load_embeddings w'
      = (Ok (Store scenario_texts scenario_embeddings), w')
    ∧ AgnoQA.load_embeddings w'
      = (Ok (Store scenario_texts scenario_embeddings), w')
    ∧ (_ ← Main.save_embeddings scenario_texts scenario_embeddings;
       Main.load_embeddings) (world_with None)
      = (Ok (Store scenario_texts scenario_embeddings), w')
    ∧ ∀ d, (Main.load_embeddings w').1 = Ok d →
           texts d = scenario_texts ∧ embeddings d = scenario_embeddings.
Proof.
  apply (load_after_save scenario_texts scenario_embeddings (world_with None)).
  reflexivity.
Defined.

(** ** The content loader *)

Lemma lstrip_blank s : is_blank s = true → Py.lstrip s = EmptyString.
Proof.
  induction s as [|c r IH]; cbn; [done|].
  destruct (Py.isspace c); [exact IH|done].
Qed.

Lemma lstrip_nonblank s :
  is_blank s = false → is_blank (Py.lstrip s) = false.
Proof.
  induction s as [|c r IH]; cbn; [done|].
  destruct (Py.isspace c) eqn:E; [exact IH|]. intros _. cbn. by rewrite E.
Qed.

Lemma append_cons c (a b : string) :
  (String c a ++ b)%string = String c (a ++ b)%string.
Proof. reflexivity. Qed.

Lemma lstrip_spec s :
  ∃ pre, s = (pre ++ Py.lstrip s)%string ∧ is_blank pre = true
    ∧ starts_with_space (Py.lstrip s) = false.
Proof.
  induction s as [|c r (pre & Hr & Hpre & Hst)]; cbn.
  - by exists EmptyString.
  - destruct (Py.isspace c) eqn:E.
    + exists (String c pre). cbn. rewrite E, Hpre. split_and!; [|done..].
      rewrite append_cons. by f_equal.
    + exists EmptyString. cbn. by rewrite E.
Qed.

Lemma rstrip_empty_iff s : Py.rstrip s = EmptyString ↔ is_blank s = true.
Proof.
  induction s as [|c r IH]; cbn; [done|].
  destruct (Py.rstrip r) as [|c' r'].
  - destruct (Py.isspace c); cbn; [|done]. split; [|done].
    intros _. by apply IH.
  - split; [done|]. intros [_ Hr]%andb_true_iff. by apply IH in Hr.
Qed.

Lemma rstrip_spec s :
  ∃ post, s = (Py.rstrip s ++ post)%string ∧ is_blank post = true
    ∧ ends_with_space (Py.rstrip s) = false.
Proof.
  induction s as [|c r (post & Hr & Hpost & Hend)]; cbn.
  - by exists EmptyString.
  - destruct (Py.rstrip r) as [|c' r'] eqn:Er.
    + cbn in Hr. subst r. destruct (Py.isspace c) eqn:E.
      * exists (String c post). cbn. by rewrite E, Hpost.
      * exists post. cbn. by rewrite E.
    + exists post. split_and!; [|done..]. rewrite append_cons. by f_equal.
Qed.

Lemma rstrip_starts s :
  starts_with_space s = false → starts_with_space (Py.rstrip s) = false.
Proof.
  destruct s as [|c r]; cbn; [done|]. intros E.
  destruct (Py.rstrip r); [by rewrite E|done].
Qed.

Lemma strip_empty_iff s : Py.strip s = EmptyString ↔ is_blank s = true.
Proof.
  unfold Py.strip. rewrite rstrip_empty_iff. split.
  - intros H. destruct (is_blank s) eqn:E; [done|].
    apply lstrip_nonblank in E. congruence.
  - intros H. by rewrite lstrip_blank.
Qed.

Lemma truthy_strip s : Py.truthy (Py.strip s) = nonblank s.
Proof.
  unfold nonblank. destruct (is_blank s) eqn:E.
  - apply strip_empty_iff in E. by rewrite E.
  - destruct (Py.strip s) eqn:Es; [|done].
    apply strip_empty_iff in Es. congruence.
Qed.

Lemma string_app_assoc (a b c : string) :
  ((a ++ b) ++ c)%string = (a ++ b ++ c)%string.
Proof. induction a as [|x a IH]; [done|]. by rewrite !append_cons, IH. Qed.

Lemma is_blank_app a b :
  is_blank a = true → is_blank b = true → is_blank (a ++ b)%string = true.
Proof.
  intros Ha Hb. induction a as [|x a IH]; [done|].
  rewrite append_cons. cbn in *.
  apply andb_true_iff in Ha as [-> Ha]. by apply IH.
Qed.

Lemma strip_trimmed s : trimmed_of s (Py.strip s).
Proof.
  destruct (lstrip_spec s) as (pre & Hs & Hpre & Hst).
  destruct (rstrip_spec (Py.lstrip s)) as (post & Hl & Hpost & Hend).
  exists pre, post. unfold Py.strip. split_and!; [|done..|by apply rstrip_starts|done].
  by rewrite <- Hl.
Qed.

Lemma stripped_lines_spec ls :
  Main.stripped_lines ls = map Py.strip (List.filter nonblank ls).
Proof.
  induction ls as [|l ls IH]; cbn; [done|].
  rewrite truthy_strip. destruct (nonblank l); cbn; by rewrite IH.
Qed.

Lemma agno_load_content_eq : AgnoQA.load_content = Main.load_content.
Proof. reflexivity. Qed.

Lemma load_content_some w text :
  content_txt w = Some text →
  Main.load_content w = (Ok (Main.stripped_lines (source_lines text)), w).
Proof.
  intros H. unfold Main.load_content, mbind, M_bind, Main.open_content_txt.
  by rewrite H.
Qed.

(** *** The lines of a text, independently of the reader *)

Lemma append_nil_r (s : string) : (s ++ EmptyString)%string = s.
Proof. induction s as [|c s IH]; [done|]. by rewrite append_cons, IH. Qed.

Lemma is_break_false c :
  is_break c = false → Ascii.eqb c Py.LF = false ∧ Ascii.eqb c Py.CR = false.
Proof. unfold is_break. by intros ?%orb_false_iff. Qed.

Lemma no_break_cons c r :
  no_break (String c r) = true ↔ is_break c = false ∧ no_break r = true.
Proof. cbn. rewrite andb_true_iff, negb_true_iff. done. Qed.

Lemma no_break_snoc p c :
  no_break p = true → is_break c = false →
  no_break (p ++ String c EmptyString) = true.
Proof.
  intros Hp Hc. induction p as [|x p IH].
  - apply no_break_cons. done.
  - apply no_break_cons in Hp as [Hx Hp]. rewrite append_cons.
    apply no_break_cons. split; [done|by apply IH].
Qed.

Lemma append_snoc p c r :
  ((p ++ String c EmptyString) ++ r)%string = (p ++ String c r)%string.
Proof. by rewrite string_app_assoc. Qed.

(** Induction on a text along its line structure. *)
Lemma string_ind_breaks (P : string → Prop) :
  P EmptyString →
  (∀ c r, is_break c = false → P r → P (String c r)) →
  (∀ r, P r → P (String Py.LF r)) →
  (∀ r, P r → P (String Py.CR (String Py.LF r))) →
  (∀ r, starts_with_lf r = false → P r → P (String Py.CR r)) →
  ∀ s, P s.
Proof.
  intros H0 Hplain Hlf Hcrlf Hcr s.
  assert (P s ∧ ∀ c, P (String c s)) as [? _]; [|done].
  induction s as [|c' r [IH1 IH2]].
  - split; [done|]. intros c.
    destruct (Ascii.eqb_spec c Py.LF) as [->|Hlf']; [by apply Hlf|].
    destruct (Ascii.eqb_spec c Py.CR) as [->|Hcr']; [by apply Hcr|].
    apply Hplain; [|done]. unfold is_break.
    apply orb_false_iff. split; by apply Ascii.eqb_neq.
  - split; [apply IH2|]. intros c.
    destruct (Ascii.eqb_spec c Py.LF) as [->|Hlf']; [apply Hlf, IH2|].
    destruct (Ascii.eqb_spec c Py.CR) as [->|Hcr'].
    + destruct (Ascii.eqb_spec c' Py.LF) as [->|Hc'].
      * by apply Hcrlf.
      * apply Hcr; [|apply IH2]. cbn. by apply Ascii.eqb_neq.
    + apply Hplain; [|apply IH2]. unfold is_break.
      apply orb_false_iff. split; by apply Ascii.eqb_neq.
Qed.

(** A text has at least one line. *)
Lemma split_lines_cons s : ∃ l ls, split_lines s = l :: ls.
Proof.
  induction s as [|c r (l & ls & IH)]; [by eexists _, _|].
  cbn [split_lines]. rewrite IH.
  destruct (Ascii.eqb c Py.LF); [by eexists _, _|].
  destruct (Ascii.eqb c Py.CR); [|by eexists _, _].
  destruct r as [|c' r']; [by eexists _, _|].
  destruct (Ascii.eqb c' Py.LF); by eexists _, _.
Qed.

Lemma split_lines_app p s :
  no_break p = true →
  split_lines (p ++ s)
  = match split_lines s with
    | l :: ls => (p ++ l)%string :: ls
    | [] => [p]
    end.
Proof.
  intros Hp. destruct (split_lines_cons s) as (l & ls & Hs). rewrite Hs.
  induction p as [|c p IH].
  - done.
  - apply no_break_cons in Hp as [[Hlf Hcr]%is_break_false Hp].
    rewrite append_cons. cbn [split_lines]. by rewrite Hlf, Hcr, (IH Hp).
Qed.

Lemma split_lines_no_break p : no_break p = true → split_lines p = [p].
Proof.
  intros Hp. rewrite <- (append_nil_r p) at 1.
  rewrite (split_lines_app _ _ Hp). cbn. by rewrite append_nil_r.
Qed.

Lemma split_lines_at_break p c r ls :
  no_break p = true → split_lines (String c r) = EmptyString :: ls →
  split_lines (p ++ String c r) = p :: ls.
Proof.
  intros Hp Hc. rewrite (split_lines_app _ _ Hp), Hc. by rewrite append_nil_r.
Qed.

Lemma split_lines_cr r :
  starts_with_lf r = false →
  split_lines (String Py.CR r) = EmptyString :: split_lines r.
Proof.
  intros Hr. destruct r as [|c r]; [done|]. cbn in Hr.
  cbn [split_lines]. rewrite Hr. done.
Qed.

(** The computed lines are the lines of the text. *)
Lemma split_lines_text_lines s : text_lines s (split_lines s).
Proof.
  assert (∀ p, no_break p = true → text_lines (p ++ s) (split_lines (p ++ s)))
    as H; [|exact (H EmptyString eq_refl)].
  induction s as [|c r Hc IH|r IH|r IH|r Hr IH] using string_ind_breaks;
    intros p Hp.
  - rewrite append_nil_r, (split_lines_no_break _ Hp). by constructor.
  - rewrite <- append_snoc. apply IH. by apply no_break_snoc.
  - rewrite (split_lines_at_break p _ _ (split_lines r)) by done.
    apply tl_lf; [done|]. exact (IH EmptyString eq_refl).
  - rewrite (split_lines_at_break p _ _ (split_lines r)) by done.
    apply tl_crlf; [done|]. exact (IH EmptyString eq_refl).
  - rewrite (split_lines_at_break p _ _ (split_lines r))
      by (try done; by apply split_lines_cr).
    apply tl_cr; [done|done|]. exact (IH EmptyString eq_refl).
Qed.

(** A text has one sequence of lines. *)
Lemma text_lines_split_lines s ls : text_lines s ls → ls = split_lines s.
Proof.
  induction 1 as [l Hl|l rest ls Hl _ IH|l rest ls Hl _ IH|l rest ls Hl Hr _ IH].
  - by rewrite split_lines_no_break.
  - by rewrite (split_lines_at_break l _ _ (split_lines rest)), IH.
  - by rewrite (split_lines_at_break l _ _ (split_lines rest)), IH.
  - rewrite (split_lines_at_break l _ _ (split_lines rest)), IH;
      [done..|by apply split_lines_cr].
Qed.

Lemma text_lines_unique s ls ls' :
  text_lines s ls → text_lines s ls' → ls = ls'.
Proof. intros H H'. by rewrite (text_lines_split_lines _ _ H),
                             (text_lines_split_lines _ _ H'). Qed.

(** *** The trimmed version of a line is unique *)

Lemma lstrip_blank_prefix pre x :
  is_blank pre = true → Py.lstrip (pre ++ x) = Py.lstrip x.
Proof.
  intros Hpre. induction pre as [|c pre IH]; [done|].
  cbn in Hpre. apply andb_true_iff in Hpre as [Hc Hpre].
  rewrite append_cons. cbn [Py.lstrip]. rewrite Hc. by apply IH.
Qed.

Lemma lstrip_no_leading x : starts_with_space x = false → Py.lstrip x = x.
Proof. destruct x as [|c x]; [done|]. cbn. by intros ->. Qed.

Lemma rstrip_blank_suffix t post :
  is_blank post = true → Py.rstrip (t ++ post) = Py.rstrip t.
Proof.
  intros Hpost. induction t as [|c t IH].
  - by apply rstrip_empty_iff.
  - rewrite append_cons. cbn [Py.rstrip]. by rewrite IH.
Qed.

Lemma rstrip_no_trailing t : ends_with_space t = false → Py.rstrip t = t.
Proof.
  induction t as [|c t IH]; [done|]. cbn [ends_with_space Py.rstrip].
  destruct t as [|c' t].
  - cbn. by intros ->.
  - intros Ht. by rewrite (IH Ht).
Qed.

Lemma trimmed_of_strip line t : trimmed_of line t → t = Py.strip line.
Proof.
  intros (pre & post & -> & Hpre & Hpost & Hstart & Hend).
  unfold Py.strip. rewrite (lstrip_blank_prefix _ _ Hpre).
  destruct t as [|c t].
  - change (EmptyString ++ post)%string with post.
    by rewrite (lstrip_blank _ Hpost).
  - rewrite lstrip_no_leading by (by rewrite append_cons).
    by rewrite (rstrip_blank_suffix _ _ Hpost), (rstrip_no_trailing _ Hend).
Qed.

Lemma strip_append_lf p :
  Py.strip (p ++ String Py.LF EmptyString) = Py.strip p.
Proof.
  symmetry. apply trimmed_of_strip.
  destruct (strip_trimmed p) as (pre & post & Hp & Hpre & Hpost & Hs & He).
  exists pre, (post ++ String Py.LF EmptyString)%string.
  split_and!; [|done| |done|done].
  - rewrite Hp at 1. by rewrite !string_app_assoc.
  - by apply is_blank_app.
Qed.

Lemma nonblank_append_lf p :
  nonblank (p ++ String Py.LF EmptyString) = nonblank p.
Proof.
  unfold nonblank. f_equal. induction p as [|c p IH]; [done|].
  rewrite append_cons. cbn. by rewrite IH.
Qed.

(** *** The reader yields the lines of the text *)

Lemma universal_newlines_app p s :
  no_break p = true →
  Py.universal_newlines (p ++ s) = (p ++ Py.universal_newlines s)%string.
Proof.
  intros Hp. induction p as [|c p IH]; [done|].
  apply no_break_cons in Hp as [[_ Hcr]%is_break_false Hp].
  rewrite !append_cons. cbn [Py.universal_newlines]. by rewrite Hcr, IH.
Qed.

Lemma universal_newlines_cr r :
  starts_with_lf r = false →
  Py.universal_newlines (String Py.CR r)
  = String Py.LF (Py.universal_newlines r).
Proof.
  intros Hr. destruct r as [|c r]; [done|]. cbn in Hr.
  cbn [Py.universal_newlines]. change (Ascii.eqb Py.CR Py.CR) with true.
  cbv iota. by rewrite Hr.
Qed.

Lemma iter_lines_app_lf p x :
  no_break p = true →
  Py.iter_lines (p ++ String Py.LF x)
  = (p ++ String Py.LF EmptyString)%string :: Py.iter_lines x.
Proof.
  intros Hp. induction p as [|c p IH]; [done|].
  apply no_break_cons in Hp as [[Hlf _]%is_break_false Hp].
  rewrite !append_cons. cbn [Py.iter_lines]. by rewrite Hlf, IH.
Qed.

Lemma iter_lines_no_break p :
  no_break p = true →
  Py.iter_lines p = match p with EmptyString => [] | String _ _ => [p] end.
Proof.
  induction p as [|c p IH]; [done|].
  intros [[Hlf _]%is_break_false Hp]%no_break_cons.
  cbn [Py.iter_lines]. rewrite Hlf, (IH Hp). by destruct p.
Qed.

Lemma records_cons l ls :
  map Py.strip (List.filter nonblank (l :: ls))
  = map Py.strip (List.filter nonblank [l])
    ++ map Py.strip (List.filter nonblank ls).
Proof. cbn. by destruct (nonblank l). Qed.

(** The records read through [open] are those of the lines of the text. *)
Lemma source_lines_records s :
  map Py.strip (List.filter nonblank (source_lines s))
  = map Py.strip (List.filter nonblank (split_lines s)).
Proof.
  unfold source_lines.
  assert (∀ p, no_break p = true →
            map Py.strip (List.filter nonblank
                            (Py.iter_lines (Py.universal_newlines (p ++ s))))
            = map Py.strip (List.filter nonblank (split_lines (p ++ s))))
    as H; [|exact (H EmptyString eq_refl)].
  assert (∀ p x ls, no_break p = true →
            map Py.strip (List.filter nonblank (Py.iter_lines x))
            = map Py.strip (List.filter nonblank ls) →
            map Py.strip (List.filter nonblank
                            (Py.iter_lines (p ++ String Py.LF x)))
            = map Py.strip (List.filter nonblank (p :: ls))) as Hstep.
  { intros p x ls Hp Hx.
    rewrite (iter_lines_app_lf _ _ Hp), records_cons, (records_cons p), Hx.
    f_equal. cbn [List.filter]. rewrite nonblank_append_lf.
    destruct (nonblank p); [|done]. cbn [map]. by rewrite strip_append_lf. }
  induction s as [|c r Hc IH|r IH|r IH|r Hr IH] using string_ind_breaks;
    intros p Hp.
  - rewrite append_nil_r, (split_lines_no_break _ Hp).
    rewrite <- (append_nil_r p) at 1.
    rewrite (universal_newlines_app _ _ Hp). cbn [Py.universal_newlines].
    rewrite append_nil_r, (iter_lines_no_break _ Hp). by destruct p.
  - rewrite <- append_snoc. apply IH. by apply no_break_snoc.
  - rewrite (split_lines_at_break p _ _ (split_lines r)) by done.
    rewrite (universal_newlines_app _ _ Hp).
    change (Py.universal_newlines (String Py.LF r))
      with (String Py.LF (Py.universal_newlines r)).
    apply Hstep; [done|]. exact (IH EmptyString eq_refl).
  - rewrite (split_lines_at_break p _ _ (split_lines r)) by done.
    rewrite (universal_newlines_app _ _ Hp).
    change (Py.universal_newlines (String Py.CR (String Py.LF r)))
      with (String Py.LF (Py.universal_newlines r)).
    apply Hstep; [done|]. exact (IH EmptyString eq_refl).
  - rewrite (split_lines_at_break p _ _ (split_lines r))
      by (try done; by apply split_lines_cr).
    rewrite (universal_newlines_app _ _ Hp), (universal_newlines_cr _ Hr).
    apply Hstep; [done|]. exact (IH EmptyString eq_refl).
Qed.

(** C7: for every readable text source [load_content] returns a result,
    and the result is, in the order of the source, the whitespace-trimmed
    version of each line of the source that is not blank, blank lines
    being dropped, where the lines of the source are stated on its text by
    [text_lines], not by the reader.  It leaves the world as it is, and
    reading the source a second time returns the same sequence. *)
Theorem load_content_trimmed_nonblank_lines w text :
  content_txt w = Some text →
  (∃ recs, Main.load_content w = (Ok recs, w))
  ∧ (∃ lines, text_lines text lines)
  ∧ ∀ recs w', Main.load_content w = (Ok recs, w') →
      w' = w
      ∧ AgnoQA.load_content w = (Ok recs, w)
      ∧ (∀ lines, text_lines text lines →
           Forall2 trimmed_of (List.filter nonblank lines) recs)
      ∧ (∀ lines recs', text_lines text lines →
           Forall2 trimmed_of (List.filter nonblank lines) recs' →
           recs' = recs)
      ∧ recs = map Py.strip (List.filter nonblank (source_lines text))
      ∧ Forall (fun r => is_blank r = false) recs
      ∧ (a ← Main.load_content; b ← Main.load_content; mret (a, b)) w
        = (Ok (recs, recs), w).
Proof.
  intros H. pose proof (load_content_some _ _ H) as Hl.
  split_and!; [by eexists|eexists; apply split_lines_text_lines|].
  intros recs w' Hr. rewrite Hl in Hr. injection Hr as <- <-.
  assert (Main.stripped_lines (source_lines text)
          = map Py.strip (List.filter nonblank (split_lines text))) as Hrecs.
  { by rewrite stripped_lines_spec, source_lines_records. }
  split_and!; [done|by rewrite agno_load_content_eq| | |apply stripped_lines_spec| |].
  - intros lines ->%text_lines_split_lines. rewrite Hrecs. clear.
    induction (List.filter nonblank (split_lines text)) as [|l ls IH];
      cbn; [constructor|].
    constructor; [apply strip_trimmed|exact IH].
  - intros lines recs' ->%text_lines_split_lines Hall. rewrite Hrecs. clear -Hall.
    induction Hall as [|l r ls rs Hlr _ IH]; [done|].
    cbn. by rewrite (trimmed_of_strip _ _ Hlr), IH.
  - rewrite stripped_lines_spec. apply Forall_forall.
    intros r Hr. apply list_elem_of_In, in_map_iff in Hr as (l & <- & Hin).
    apply filter_In in Hin as [_ Hnb]. unfold nonblank in Hnb.
    destruct (is_blank (Py.strip l)) eqn:E; [|done].
    destruct (strip_trimmed l) as (pre & post & Hl' & Hpre & Hpost & _).
    exfalso. revert Hnb. rewrite Hl'.
    rewrite is_blank_app; [done|done|]. by apply is_blank_app.
  - unfold mbind at 1, M_bind at 1. rewrite Hl.
    unfold mbind at 1, M_bind at 1. by rewrite Hl.
Qed.

Lemma load_content_trimmed_nonblank_lines_witness :
  content_world sample_text = content_world sample_text
  ∧ AgnoQA.load_content (content_world sample_text)
    = (Ok sample_records, content_world sample_text)
  ∧ (∀ lines, text_lines sample_text lines →
       Forall2 trimmed_of (List.filter nonblank lines) sample_records)
  ∧ (∀ lines recs', text_lines sample_text lines →
       Forall2 trimmed_of (List.filter nonblank lines) recs' →
       recs' = sample_records)
  ∧ sample_records
    = map Py.strip (List.filter nonblank (source_lines sample_text))
  ∧ Forall (fun r => is_blank r = false) sample_records
  ∧ (a ← Main.load_content; b ← Main.load_content; mret (a, b))
      (content_world sample_text)
    = (Ok (sample_records, sample_records), content_world sample_text).
Proof.
  apply (proj2 (proj2 (load_content_trimmed_nonblank_lines
                         (content_world sample_text) sample_text eq_refl))
           sample_records (content_world sample_text)).
  reflexivity.
Defined.

(** The lines of the sample text are the four it was written with. *)
Lemma sample_text_lines : text_lines sample_text sample_lines.
Proof.
  apply (tl_crlf "  first line "); [done|].
  apply (tl_lf EmptyString); [done|].
  apply (tl_cr "second"); [done|done|].
  by apply tl_last.
Qed.

(** ** The context string *)

Lemma join_blank_line_separated ts :
  blank_line_separated ts (Py.join blank_line ts).
Proof.
  induction ts as [|t ts IH]; [constructor|].
  destruct ts as [|t' ts]; [constructor|].
  change (Py.join blank_line (t :: t' :: ts))
    with (t ++ blank_line ++ Py.join blank_line (t' :: ts))%string.
  by constructor.
Qed.

Lemma blank_line_separated_join ts s :
  blank_line_separated ts s → s = Py.join blank_line ts.
Proof. induction 1 as [|t|t t' ts s _ IH]; [done..|]. by rewrite IH. Qed.

Lemma get_relevant_context_some p query w d :
  stored_data w = Some d →
  AgnoQA.get_relevant_context p query w
  = (qe ← embeddings_create p (embedding_model w) query;
     ts ← AgnoQA.find_most_similar qe (embeddings d) (texts d) 3;
     Ok (Py.join blank_line ts), w).
Proof.
  intros H. unfold AgnoQA.get_relevant_context, mbind at 1, M_bind at 1, gets.
  rewrite H. unfold mbind at 1, M_bind at 1, Os.getenv, gets, lift.
  fold (embedding_model w). unfold mbind at 1, M_bind at 1.
  destruct (embeddings_create p (embedding_model w) query) as [qe|e]; [|done].
  unfold mbind at 1, M_bind at 1, AgnoQA.default_top_k.
  cbn -[AgnoQA.find_most_similar Py.join].
  by destruct (AgnoQA.find_most_similar qe (embeddings d) (texts d) 3).
Qed.

Lemma relevant_context_some p question w d :
  embedding_json w = Some (Document d) →
  Main.relevant_context p question w
  = (qe ← embeddings_create p (embedding_model w) question;
     ts ← Main.find_most_similar qe (embeddings d) (texts d) 3;
     Ok (Py.join blank_line ts), w).
Proof.
  intros H. unfold Main.relevant_context, mbind at 1, M_bind at 1.
  unfold Os.getenv, gets, lift. fold (embedding_model w).
  unfold mbind at 1, M_bind at 1.
  destruct (embeddings_create p (embedding_model w) question) as [qe|e]; [|done].
  unfold mbind at 1, M_bind at 1, Main.load_embeddings. rewrite H.
  unfold mbind at 1, M_bind at 1, lift, Main.default_top_k.
  cbn -[Main.find_most_similar Py.join].
  by destruct (Main.find_most_similar qe (embeddings d) (texts d) 3).
Qed.

(** C8: whenever a store is present, the context string assembled for a
    question is the texts that [find_most_similar] returns for the
    question's embedding with the default [k = 3], in the order returned,
    with two newline characters between consecutive texts and nothing
    else: for the loaded global of [get_relevant_context] and for the
    persisted artifact of [answer_question], whose completion request
    carries that context. *)
Theorem context_is_blank_line_joined_top3 p question w context :
  (∀ d, stored_data w = Some d →
     ((AgnoQA.get_relevant_context p question w).1 = Ok context ↔
      ∃ qe ts, embeddings_create p (embedding_model w) question = Ok qe
        ∧ AgnoQA.find_most_similar qe (embeddings d) (texts d) 3 = Ok ts
        ∧ blank_line_separated ts context))
  ∧ (∀ d, embedding_json w = Some (Document d) →
     ((Main.relevant_context p question w).1 = Ok context ↔
      ∃ qe ts, embeddings_create p (embedding_model w) question = Ok qe
        ∧ Main.find_most_similar qe (embeddings d) (texts d) 3 = Ok ts
        ∧ blank_line_separated ts context)
     ∧ ((Main.relevant_context p question w).1 = Ok context →
        (Main.answer_question p question w).1
        = chat_completions_create p (completion_model w)
            [("system", Main.system_prompt);
             ("user", Main.user_prompt context question)]%string)).
Proof.
  assert (∀ (find : list float → result (list string)),
            ((qe ← embeddings_create p (embedding_model w) question;
              ts ← find qe; Ok (Py.join blank_line ts)) = Ok context ↔
             ∃ qe ts, embeddings_create p (embedding_model w) question = Ok qe
               ∧ find qe = Ok ts ∧ blank_line_separated ts context)) as Hiff.
  { intros find. split.
    - destruct (embeddings_create _ _ _) as [qe|]; [|done]. cbn.
      destruct (find qe) as [ts|] eqn:Hf; [|done]. cbn. intros [= <-].
      exists qe, ts. split_and!; [done..|]. apply join_blank_line_separated.
    - intros (qe & ts & -> & Hf & Hs). cbn. rewrite Hf. cbn.
      by rewrite (blank_line_separated_join _ _ Hs). }
  split.
  - intros d Hd. rewrite (get_relevant_context_some _ _ _ _ Hd). cbn [fst].
    apply (Hiff (fun qe => AgnoQA.find_most_similar qe (embeddings d) (texts d) 3)).
  - intros d Hd. pose proof (relevant_context_some p question _ _ Hd) as Hc.
    split.
    + rewrite Hc. cbn [fst].
      apply (Hiff (fun qe => Main.find_most_similar qe (embeddings d) (texts d) 3)).
    + intros Hok. unfold Main.answer_question, mbind at 1, M_bind at 1.
      destruct (Main.relevant_context p question w) as [r w'] eqn:Hr.
      injection Hc as _ ->. cbn in Hok. by rewrite Hok.
Qed.

Lemma context_is_blank_line_joined_top3_witness :
  ((AgnoQA.get_relevant_context scenario_provider "Who invests in AI?"
      scenario_world).1
   = Ok ("Nvidia GPUs power AI training" ++ blank_line
          ++ "Microsoft invests $80B in AI")%string ↔
   ∃ qe ts, embeddings_create scenario_provider
              (embedding_model scenario_world) "Who invests in AI?" = Ok qe
     ∧ AgnoQA.find_most_similar qe (embeddings scenario_store)
         (texts scenario_store) 3 = Ok ts
     ∧ blank_line_separated ts
         ("Nvidia GPUs power AI training" ++ blank_line
          ++ "Microsoft invests $80B in AI")%string).
Proof.
  apply (proj1 (context_is_blank_line_joined_top3 scenario_provider
                  "Who invests in AI?" scenario_world
                  ("Nvidia GPUs power AI training" ++ blank_line
                   ++ "Microsoft invests $80B in AI")%string)
           scenario_store).
  reflexivity.
Defined.

(** ** Query time leaves the store alone *)

Lemma read_only_ret {A} (a : A) : read_only (mret a).
Proof. by intros w. Qed.

Lemma read_only_lift {A} (r : result A) : read_only (lift r).
Proof. by intros w. Qed.

Lemma read_only_gets {A} (f : world → A) : read_only (gets f).
Proof. by intros w. Qed.

Lemma read_only_bind {A B} (m : M A) (f : A → M B) :
  read_only m → (∀ a, read_only (f a)) → read_only (m ≫= f).
Proof.
  intros Hm Hf w. unfold mbind, M_bind. specialize (Hm w).
  destruct (m w) as [[a|e] w']; cbn in *; subst w'; [apply Hf|done].
Qed.

Lemma read_only_load_embeddings : read_only Main.load_embeddings.
Proof. intros w. unfold Main.load_embeddings. by destruct (embedding_json w) as [[]|]. Qed.

Lemma read_only_relevant_context p question :
  read_only (Main.relevant_context p question).
Proof.
  unfold Main.relevant_context, Os.getenv.
  repeat (first [apply read_only_load_embeddings|apply read_only_ret
                |apply read_only_gets|apply read_only_lift
                |apply read_only_bind; [|intros ?]]).
Qed.

(** C9: query-time operations leave the store unchanged.
    [find_most_similar] is a function of its arguments that returns a new
    list; run as a step of a query it leaves the world as it is.  After
    [answer_question] and after [get_relevant_context], whatever they
    return or raise, the persisted artifact and the loaded store are the
    ones from before the call: the texts and vectors are unchanged and the
    embedding of the question has been added to neither. *)
Theorem query_leaves_store_unchanged p question w :
  (∀ q embs ts k, read_only (lift (Main.find_most_similar q embs ts k)))
  ∧ (Main.answer_question p question w).2 = w
  ∧ (AgnoQA.get_relevant_context p question w).2 = w
  ∧ embedding_json (Main.answer_question p question w).2 = embedding_json w
  ∧ embedding_json (AgnoQA.get_relevant_context p question w).2
    = embedding_json w
  ∧ stored_data (AgnoQA.get_relevant_context p question w).2 = stored_data w.
Proof.
  assert (read_only (Main.answer_question p question)) as Ha.
  { unfold Main.answer_question, Os.getenv.
    repeat (first [apply read_only_relevant_context
                  |apply read_only_gets|apply read_only_lift
                  |apply read_only_bind; [|intros ?]]). }
  assert (read_only (AgnoQA.get_relevant_context p question)) as Hg.
  { unfold AgnoQA.get_relevant_context, Os.getenv.
    apply read_only_bind; [apply read_only_gets|]. intros [d|]; cbv beta iota.
    - repeat (first [apply read_only_ret
                    |apply read_only_gets|apply read_only_lift
                    |apply read_only_bind; [|intros ?]]).
    - apply read_only_ret. }
  split_and!; [intros; apply read_only_lift|apply Ha|apply Hg|..];
    by rewrite ?Ha, ?Hg.
Qed.

(** * Further properties of the search *)

Lemma precedes_not_lt sims i j :
  precedes sims i j → Np.lt (score sims j) (score sims i) = false.
Proof.
  intros [Hp|[Hp _]]; [|done].
  apply not_true_iff_false. rewrite lt_key. apply lt_key in Hp.
  revert Hp. unfold key_lt.
  destruct (key (score sims i)) as [[] ?], (key (score sims j)) as [[] ?].
  cbn. lia.
Qed.

Lemma slice_from_nonneg {A} (l : list A) (s : Z) :
  0 ≤ s → Py.slice_from l s = drop (Z.to_nat s) l.
Proof.
  intros Hs. unfold Py.slice_from.
  destruct (Z.ltb_spec s 0); [lia|].
  destruct (Z.le_gt_cases s (Z.of_nat (length l))).
  - by rewrite Z.min_l.
  - rewrite Z.min_r, Nat2Z.id, !drop_ge by lia. done.
Qed.

Lemma find_most_similar_select q embs texts k idx :
  Main.top_indices q embs k = Ok idx →
  (length embs ≤ length texts)%nat →
  Main.find_most_similar q embs texts k = Ok (select texts idx).
Proof.
  intros Hi Hlen. unfold Main.find_most_similar. rewrite Hi. cbn.
  apply comprehension_getitem.
  unfold Main.top_indices in Hi.
  destruct (Main.similarities q embs) as [sims|] eqn:Hs; [|done].
  destruct (top_indices_sorted q embs k sims idx Hs) as (_ & _ & Hb).
  { unfold Main.top_indices. by rewrite Hs. }
  eapply Forall_impl; [exact Hb|]. cbn. lia.
Qed.

Lemma select_seq_from texts pre :
  select (pre ++ texts) (seq (length pre) (length texts)) = texts.
Proof.
  revert pre. induction texts as [|t texts IH]; intros pre; [done|].
  cbn. f_equal.
  - by rewrite app_nth2, Nat.sub_diag by lia.
  - specialize (IH (pre ++ [t])).
    rewrite length_app, Nat.add_1_r, <- app_assoc in IH. exact IH.
Qed.

Lemma select_seq texts : select texts (seq 0 (length texts)) = texts.
Proof. apply (select_seq_from texts []). Qed.

(** X1: for an index of [N >= 1] records and a query of the stored
    dimension, [top_k = 0] selects all [N] records, since [[-0:]] is the
    whole array, and a negative [top_k] drops the [-top_k] lowest-ranked
    records of the ascending order and returns the rest. *)
Theorem find_most_similar_nonpositive_top_k q embs texts k :
  well_formed q embs → length texts = length embs → k ≤ 0 →
  ∃ sims,
    Main.similarities q embs = Ok sims
    ∧ Main.find_most_similar q embs texts k
      = Ok (select texts (drop (Z.to_nat (- k)) (Np.argsort sims)))
    ∧ AgnoQA.find_most_similar q embs texts k
      = Ok (select texts (drop (Z.to_nat (- k)) (Np.argsort sims)))
    ∧ (∀ r, Main.find_most_similar q embs texts k = Ok r →
         length r = (length embs - Z.to_nat (- k))%nat)
    ∧ (k = 0 → ∀ r, Main.find_most_similar q embs texts k = Ok r →
         r ≡ₚ texts).
Proof.
  intros Hwf Hlen Hk.
  pose proof (similarities_ok _ _ Hwf) as Hs.
  set (sims := map (cosine q) embs) in *.
  assert (Main.top_indices q embs k
          = Ok (drop (Z.to_nat (- k)) (Np.argsort sims))) as Hi.
  { unfold Main.top_indices. rewrite Hs. cbn.
    by rewrite slice_from_nonneg by lia. }
  assert (Main.find_most_similar q embs texts k
          = Ok (select texts (drop (Z.to_nat (- k)) (Np.argsort sims)))) as Hf.
  { apply find_most_similar_select; [done|]. by rewrite Hlen. }
  exists sims. split_and!; [done|done|by rewrite agno_find_most_similar_eq| |].
  - intros r Hr. rewrite Hf in Hr. injection Hr as <-.
    unfold select. rewrite length_map, length_drop, argsort_length.
    unfold sims. by rewrite length_map.
  - intros -> r Hr. rewrite Hf in Hr. injection Hr as <-.
    change (drop (Z.to_nat (- 0)) (Np.argsort sims)) with (Np.argsort sims).
    transitivity (select texts (seq 0 (length texts))); [|by rewrite select_seq].
    apply Permutation_map. rewrite argsort_perm. unfold sims.
    by rewrite length_map, Hlen.
Qed.

Lemma find_most_similar_nonpositive_top_k_witness :
  ∃ sims,
    Main.similarities scenario_query scenario_embeddings = Ok sims
    ∧ Main.find_most_similar scenario_query scenario_embeddings
        scenario_texts 0
      = Ok (select scenario_texts (drop (Z.to_nat (- 0)) (Np.argsort sims)))
    ∧ AgnoQA.find_most_similar scenario_query scenario_embeddings
        scenario_texts 0
      = Ok (select scenario_texts (drop (Z.to_nat (- 0)) (Np.argsort sims)))
    ∧ (∀ r, Main.find_most_similar scenario_query scenario_embeddings
              scenario_texts 0 = Ok r →
         length r = (length scenario_embeddings - Z.to_nat (- 0))%nat)
    ∧ (0 = 0 → ∀ r, Main.find_most_similar scenario_query scenario_embeddings
                      scenario_texts 0 = Ok r →
         r ≡ₚ scenario_texts).
Proof.
  apply (find_most_similar_nonpositive_top_k scenario_query
           scenario_embeddings scenario_texts 0).
  - split; [discriminate|]. repeat constructor.
  - reflexivity.
  - lia.
Defined.

Lemma similarities_raise q embs e :
  Main.similarities q embs = Raise e → e = ValueError ∨ e = AxisError.
Proof.
  unfold Main.similarities.
  destruct (Np.array embs) as [a|e'] eqn:Ea.
  - apply array_inv in Ea as [[-> ->]|(d & -> & Hne & Hall)]; cbn.
    + destruct (length q); cbn; intros [= <-]; auto.
    + destruct (Nat.eqb_spec d (length q)) as [->|]; cbn.
      * unfold Np.divide1, Np.scale. by rewrite !length_map, Nat.eqb_refl.
      * intros [= <-]. auto.
  - destruct embs as [|r rs]; [done|]. cbn in Ea.
    destruct (forallb _ rs); [done|]. injection Ea as <-.
    cbn. intros [= <-]. auto.
Qed.

(** X2: when there are at least as many texts as stored vectors,
    [find_most_similar] returns a result exactly when the index is well
    formed, that is when there is at least one stored vector and every
    stored vector has the dimension of the query, for every [top_k]; when
    it fails it raises [ValueError] or [AxisError]. *)
Theorem find_most_similar_succeeds_iff q embs texts k :
  (length embs ≤ length texts)%nat →
  ((∃ r, Main.find_most_similar q embs texts k = Ok r) ↔ well_formed q embs)
  ∧ ((∃ r, AgnoQA.find_most_similar q embs texts k = Ok r) ↔ well_formed q embs)
  ∧ (∀ e, Main.find_most_similar q embs texts k = Raise e →
          e = ValueError ∨ e = AxisError).
Proof.
  intros Hlen.
  assert ((∃ r, Main.find_most_similar q embs texts k = Ok r)
          ↔ well_formed q embs) as Hiff.
  { split.
    - intros [r Hr]. unfold Main.find_most_similar, Main.top_indices in Hr.
      destruct (Main.similarities q embs) as [sims|] eqn:Hs; [|done].
      by apply similarities_inv in Hs as [? _].
    - intros Hwf. pose proof (similarities_ok _ _ Hwf) as Hs.
      eexists. apply find_most_similar_select; [|done].
      unfold Main.top_indices. by rewrite Hs. }
  split_and!; [done|by rewrite agno_find_most_similar_eq|].
  intros e He.
  destruct (Main.top_indices q embs k) as [idx|e'] eqn:Hi.
  - rewrite (find_most_similar_select _ _ _ _ _ Hi Hlen) in He. done.
  - unfold Main.find_most_similar in He. rewrite Hi in He.
    injection He as <-. unfold Main.top_indices in Hi.
    destruct (Main.similarities q embs) as [sims|e''] eqn:Hs; [done|].
    injection Hi as <-. by eapply similarities_raise.
Qed.

Lemma find_most_similar_succeeds_iff_witness :
  ((∃ r, Main.find_most_similar scenario_query scenario_embeddings
           scenario_texts 5 = Ok r)
   ↔ well_formed scenario_query scenario_embeddings)
  ∧ ((∃ r, AgnoQA.find_most_similar scenario_query scenario_embeddings
             scenario_texts 5 = Ok r)
     ↔ well_formed scenario_query scenario_embeddings)
  ∧ (∀ e, Main.find_most_similar scenario_query scenario_embeddings
            scenario_texts 5 = Raise e →
          e = ValueError ∨ e = AxisError).
Proof.
  apply (find_most_similar_succeeds_iff scenario_query scenario_embeddings
           scenario_texts 5).
  cbn. lia.
Defined.

Lemma select_take texts n idx :
  Forall (fun i => (i < n)%nat) idx →
  select (take n texts) idx = select texts idx.
Proof.
  intros H. unfold select. apply map_ext_Forall.
  eapply Forall_impl; [exact H|]. intros i Hi. cbn.
  destruct (texts !! i) as [t|] eqn:Ht.
  - rewrite (nth_lookup_Some _ _ _ _ Ht).
    apply nth_lookup_Some. by rewrite lookup_take_lt.
  - rewrite !nth_overflow; [done|by apply lookup_ge_None|].
    rewrite length_take. apply lookup_ge_None in Ht. lia.
Qed.

(** X3: texts beyond the stored vectors are never returned: with at least
    as many texts as stored vectors, the result (or the exception) is the
    one obtained from the first [N] texts alone. *)
Theorem find_most_similar_ignores_extra_texts q embs texts k :
  (length embs ≤ length texts)%nat →
  Main.find_most_similar q embs texts k
  = Main.find_most_similar q embs (take (length embs) texts) k
  ∧ AgnoQA.find_most_similar q embs texts k
    = AgnoQA.find_most_similar q embs (take (length embs) texts) k.
Proof.
  intros Hlen.
  assert (Main.find_most_similar q embs texts k
          = Main.find_most_similar q embs (take (length embs) texts) k) as H.
  { destruct (Main.top_indices q embs k) as [idx|e] eqn:Hi.
    - rewrite !(find_most_similar_select _ _ _ _ idx) by
        (try done; rewrite ?length_take; lia).
      f_equal. symmetry. apply select_take.
      unfold Main.top_indices in Hi.
      destruct (Main.similarities q embs) as [sims|] eqn:Hs; [|done].
      apply (top_indices_sorted q embs k sims idx Hs).
      unfold Main.top_indices. by rewrite Hs.
    - unfold Main.find_most_similar. by rewrite Hi. }
  split; [done|by rewrite agno_find_most_similar_eq].
Qed.

Lemma find_most_similar_ignores_extra_texts_witness :
  Main.find_most_similar scenario_query scenario_embeddings
    (texts misaligned_store) 3
  = Main.find_most_similar scenario_query scenario_embeddings
      (take (length scenario_embeddings) (texts misaligned_store)) 3
  ∧ AgnoQA.find_most_similar scenario_query scenario_embeddings
      (texts misaligned_store) 3
    = AgnoQA.find_most_similar scenario_query scenario_embeddings
        (take (length scenario_embeddings) (texts misaligned_store)) 3.
Proof.
  apply (find_most_similar_ignores_extra_texts scenario_query
           scenario_embeddings (texts misaligned_store) 3).
  cbn. lia.
Defined.

Lemma comprehension_getitem_out {A} (l : list A) idx i :
  i ∈ idx → (length l ≤ i)%nat →
  Py.comprehension (fun i => Py.getitem l i) idx = Raise IndexError.
Proof.
  intros Hin Hi. induction idx as [|j idx IH]; [by apply elem_of_nil in Hin|].
  rewrite comprehension_cons. unfold Py.getitem at 1.
  destruct (l !! j) as [x|] eqn:Hj; [|done].
  apply elem_of_cons in Hin as [->|Hin].
  - apply lookup_lt_Some in Hj. lia.
  - by rewrite IH.
Qed.

(** X4: with fewer texts than stored vectors and a [top_k] that selects
    every record ([top_k >= N], or [top_k = 0]), [find_most_similar]
    raises [IndexError]. *)
Theorem find_most_similar_too_few_texts q embs texts k :
  well_formed q embs → (length texts < length embs)%nat →
  Z.of_nat (length embs) ≤ k ∨ k = 0 →
  Main.find_most_similar q embs texts k = Raise IndexError
  ∧ AgnoQA.find_most_similar q embs texts k = Raise IndexError.
Proof.
  intros Hwf Hlen Hk.
  assert (Main.find_most_similar q embs texts k = Raise IndexError) as H.
  { pose proof (similarities_ok _ _ Hwf) as Hs.
    unfold Main.find_most_similar, Main.top_indices. rewrite Hs. cbn.
    apply (comprehension_getitem_out _ _ (length texts)); [|done].
    assert (Py.slice_from (Np.argsort (map (cosine q) embs)) (- k)
            = Np.argsort (map (cosine q) embs)) as ->.
    { destruct Hk as [Hk| ->].
      - rewrite slice_from_neg, argsort_length, length_map by
          (destruct Hwf as [Hne _]; destruct embs; [done|cbn in *; lia]).
        by replace (length embs - Z.to_nat k)%nat with 0%nat by lia.
      - by rewrite slice_from_nonneg. }
    rewrite argsort_perm, elem_of_seq, length_map. lia. }
  split; [done|by rewrite agno_find_most_similar_eq].
Qed.

Lemma find_most_similar_too_few_texts_witness :
  Main.find_most_similar scenario_query scenario_embeddings ["only"]%string 2
  = Raise IndexError
  ∧ AgnoQA.find_most_similar scenario_query scenario_embeddings
      ["only"]%string 2 = Raise IndexError.
Proof.
  apply (find_most_similar_too_few_texts scenario_query scenario_embeddings
           ["only"]%string 2).
  - split; [discriminate|]. repeat constructor.
  - cbn. lia.
  - left. cbn. lia.
Defined.

(** X5: for an index of [N >= 1] records, a query of the stored dimension
    and [k >= 1], the last text of the result is the text of a record that
    no other record outranks: no stored record has a score above its
    score in NumPy's order.  The best match is at the end of the list. *)
Theorem best_match_is_last q embs texts k :
  well_formed q embs → length texts = length embs → 1 ≤ k →
  ∃ sims r j,
    Main.similarities q embs = Ok sims
    ∧ Main.find_most_similar q embs texts k = Ok r
    ∧ AgnoQA.find_most_similar q embs texts k = Ok r
    ∧ (j < length embs)%nat
    ∧ last r = Some (nth j texts EmptyString)
    ∧ ∀ i, (i < length embs)%nat →
        Np.lt (score sims j) (score sims i) = false.
Proof.
  intros Hwf Hlen Hk.
  pose proof (similarities_ok _ _ Hwf) as Hs.
  pose proof (top_indices_ok _ _ _ Hwf Hk) as Hi.
  set (sims := map (cosine q) embs) in *.
  assert (length (Np.argsort sims) = length embs) as Hla.
  { rewrite argsort_length. unfold sims. by rewrite length_map. }
  assert (length embs ≠ 0%nat) as Hne.
  { destruct Hwf as [Hne _]. by destruct embs. }
  destruct (lookup_lt_is_Some_2 (Np.argsort sims) (pred (length embs)))
    as [j Hj]; [lia|].
  assert (j < length embs)%nat as Hjn.
  { rewrite <- Hlen. rewrite <- Hlen in Hla.
    assert (j ∈ Np.argsort sims) as Hin by (by eapply list_elem_of_lookup_2).
    apply argsort_bound in Hin. unfold sims in Hin.
    rewrite length_map in Hin. lia. }
  exists sims, (select texts (drop (length embs - Z.to_nat k) (Np.argsort sims))), j.
  assert (Main.find_most_similar q embs texts k
          = Ok (select texts
                  (drop (length embs - Z.to_nat k) (Np.argsort sims)))) as Hf.
  { apply find_most_similar_select; [done|]. by rewrite Hlen. }
  split_and!; [done|done|by rewrite agno_find_most_similar_eq|done| |].
  - unfold select.
    change (map ?f ?l) with (f <$> l). rewrite fmap_last, last_lookup.
    rewrite lookup_drop, length_drop, Hla.
    replace (length embs - Z.to_nat k
             + pred (length embs - (length embs - Z.to_nat k)))%nat
      with (pred (length embs)) by lia.
    by rewrite Hj.
  - intros i Hi'.
    assert (i ∈ Np.argsort sims) as Hin.
    { rewrite argsort_perm, elem_of_seq. unfold sims. rewrite length_map. lia. }
    apply list_elem_of_lookup_1 in Hin as [p Hp].
    assert (p < length embs)%nat as Hpl.
    { rewrite <- Hla. by eapply lookup_lt_Some. }
    destruct (decide (p = pred (length embs))) as [->|Hne'].
    + rewrite Hj in Hp. injection Hp as ->. apply lt_irrefl.
    + apply precedes_not_lt.
      eapply (StronglySorted_lookup _ _ p (pred (length embs)));
        [apply argsort_sorted|lia|done..].
Qed.

Lemma best_match_is_last_witness :
  ∃ sims r j,
    Main.similarities scenario_query scenario_embeddings = Ok sims
    ∧ Main.find_most_similar scenario_query scenario_embeddings
        scenario_texts 1 = Ok r
    ∧ AgnoQA.find_most_similar scenario_query scenario_embeddings
        scenario_texts 1 = Ok r
    ∧ (j < length scenario_embeddings)%nat
    ∧ last r = Some (nth j scenario_texts EmptyString)
    ∧ ∀ i, (i < length scenario_embeddings)%nat →
        Np.lt (score sims j) (score sims i) = false.
Proof.
  apply (best_match_is_last scenario_query scenario_embeddings
           scenario_texts 1).
  - split; [discriminate|]. repeat constructor.
  - reflexivity.
  - lia.
Defined.

(** ** Queries that give no ranking *)

Lemma add_nan_l y : F64.add S754_nan y = S754_nan.
Proof. reflexivity. Qed.

Lemma add_nan_r x : F64.add x S754_nan = S754_nan.
Proof. by destruct x. Qed.

Lemma mul_nan_r x : F64.mul x S754_nan = S754_nan.
Proof. by destruct x. Qed.

Lemma fold_inner_nan l :
  fold_left (fun acc p => F64.add acc (F64.mul p.1 p.2)) l S754_nan
  = S754_nan.
Proof. induction l as [|p l IH]; [done|]. cbn. by rewrite IH. Qed.

Lemma inner_nan r q :
  length r = length q → Exists (fun x => F64.is_nan x = true) q →
  Np.inner r q = S754_nan.
Proof.
  unfold Np.inner. generalize F64.zero as acc. intros acc Hlen Hex.
  revert r acc Hlen.
  induction Hex as [x q Hx|x q Hex IH]; intros [|y r] acc Hlen; try done.
  - destruct x; try done. cbn.
    by rewrite mul_nan_r, add_nan_r, fold_inner_nan.
  - cbn. apply IH. by injection Hlen.
Qed.

Lemma inner_zero r q :
  Forall (fun x => F64.is_finite x = true) r →
  Forall (fun x => F64.is_zero x = true) q →
  F64.is_zero (Np.inner r q) = true.
Proof.
  unfold Np.inner.
  assert (F64.is_zero F64.zero = true) as Hacc by done.
  revert Hacc. generalize F64.zero as acc. intros acc Hacc Hr. revert q acc Hacc.
  induction Hr as [|x r Hx _ IH]; intros q acc Hacc Hq; [done|].
  destruct Hq as [|y q Hy Hq]; [done|]. cbn. apply IH; [|done].
  destruct acc as [sa| | |]; try done.
  destruct x as [sx|sx| |sx mx ex], y as [sy| | |]; try done;
    by destruct sa, sx, sy.
Qed.

Lemma cosine_nan_query q row :
  length row = length q → Exists (fun x => F64.is_nan x = true) q →
  cosine q row = S754_nan.
Proof. intros Hlen Hex. unfold cosine. by rewrite inner_nan. Qed.

Lemma cosine_zero_query q row :
  Forall (fun x => F64.is_zero x = true) q →
  Forall (fun x => F64.is_finite x = true) row →
  cosine q row = S754_nan.
Proof.
  intros Hq Hrow. unfold cosine.
  pose proof (inner_zero row q Hrow Hq) as Hn.
  assert (F64.is_zero (Np.linalg_norm q) = true) as Hnq.
  { unfold Np.linalg_norm.
    assert (F64.is_zero (Np.inner q q) = true) as H0.
    { apply inner_zero; [|done]. eapply Forall_impl; [exact Hq|].
      by intros [| | |]. }
    by destruct (Np.inner q q). }
  destruct (Np.inner row q) as [s| | |]; try done.
  destruct (Np.linalg_norm q) as [s'| | |]; try done.
  by destruct (Np.linalg_norm row).
Qed.

Lemma all_related_sorted {A} (R : relation A) l :
  (∀ x y, x ∈ l → y ∈ l → R x y) → StronglySorted R l.
Proof.
  induction l as [|x l IH]; intros H; constructor.
  - apply IH. intros y z Hy Hz. apply H; by right.
  - apply Forall_forall. intros y Hy. apply H; [by left|by right].
Qed.

Lemma score_all_nan {A} (l : list A) i :
  (i < length l)%nat → score (map (fun _ => S754_nan) l) i = S754_nan.
Proof.
  intros Hi. unfold score.
  destruct (lookup_lt_is_Some_2 l i Hi) as [x Hx].
  apply nth_lookup_Some.
  change (map ?f ?l) with (f <$> l). by rewrite list_lookup_fmap, Hx.
Qed.

(** X6: a query that contains a NaN, or that is all zeros while the stored
    vectors have only finite components, gives no ranking.  For an index
    of [N >= 1] records, a query of the stored dimension and [k >= 1],
    every similarity is then NaN, so every order of the indices is an
    ascending order of the scores that [np.argsort] may return, and
    [find_most_similar] returns the texts of [min(k, N)] distinct records;
    which records these are is left to the sort's treatment of equal
    scores, not to the vectors. *)
Theorem degenerate_query_gives_no_ranking q embs texts k :
  well_formed q embs → length texts = length embs → 1 ≤ k →
  Exists (fun x => F64.is_nan x = true) q
  ∨ (Forall (fun x => F64.is_zero x = true) q
     ∧ Forall (Forall (fun x => F64.is_finite x = true)) embs) →
  Main.similarities q embs = Ok (map (fun _ => S754_nan) embs)
  ∧ (∀ perm, perm ≡ₚ seq 0 (length embs) →
       argsort_result (map (fun _ => S754_nan) embs) perm)
  ∧ ∃ idx,
      Main.find_most_similar q embs texts k = Ok (select texts idx)
      ∧ AgnoQA.find_most_similar q embs texts k = Ok (select texts idx)
      ∧ length idx = Nat.min (Z.to_nat k) (length embs)
      ∧ NoDup idx
      ∧ Forall (fun i => (i < length embs)%nat) idx.
Proof.
  intros Hwf Hlen Hk Hq.
  assert (map (cosine q) embs = map (fun _ => S754_nan) embs) as Hnan.
  { apply map_ext_Forall. destruct Hwf as [_ Hdim].
    destruct Hq as [Hq|[Hq Hfin]].
    - eapply Forall_impl; [exact Hdim|]. intros row Hrow.
      by apply cosine_nan_query.
    - eapply Forall_impl; [exact Hfin|]. intros row Hrow.
      by apply cosine_zero_query. }
  pose proof (similarities_ok _ _ Hwf) as Hs. rewrite Hnan in Hs.
  split_and!; [done| |].
  - intros perm Hperm. split; [by rewrite length_map|].
    apply all_related_sorted. intros i j Hi Hj.
    rewrite Hperm in Hi, Hj. apply elem_of_seq in Hi, Hj.
    by rewrite !score_all_nan by lia.
  - pose proof (top_indices_ok _ _ _ Hwf Hk) as Hi.
    destruct (top_indices_sorted q embs k _ _ Hs Hi) as (_ & Hnd & Hb).
    eexists. split_and!; [| |  |exact Hnd|exact Hb].
    + apply find_most_similar_select; [exact Hi|]. by rewrite Hlen.
    + rewrite agno_find_most_similar_eq.
      apply find_most_similar_select; [exact Hi|]. by rewrite Hlen.
    + rewrite length_drop, argsort_length, length_map. lia.
Qed.

Lemma degenerate_query_gives_no_ranking_witness :
  Main.similarities zero_query scenario_embeddings
  = Ok (map (fun _ => S754_nan) scenario_embeddings)
  ∧ (∀ perm, perm ≡ₚ seq 0 (length scenario_embeddings) →
       argsort_result (map (fun _ => S754_nan) scenario_embeddings) perm)
  ∧ ∃ idx,
      Main.find_most_similar zero_query scenario_embeddings scenario_texts 1
      = Ok (select scenario_texts idx)
      ∧ AgnoQA.find_most_similar zero_query scenario_embeddings
          scenario_texts 1 = Ok (select scenario_texts idx)
      ∧ length idx = Nat.min (Z.to_nat 1) (length scenario_embeddings)
      ∧ NoDup idx
      ∧ Forall (fun i => (i < length scenario_embeddings)%nat) idx.
Proof.
  apply (degenerate_query_gives_no_ranking zero_query scenario_embeddings
           scenario_texts 1).
  - split; [discriminate|]. repeat constructor.
  - reflexivity.
  - lia.
  - right. split; repeat constructor.
Defined.

(** * The build path *)

Lemma for_each_lift {A B} (f : A → result B) l w :
  for_each (fun x => lift (f x)) l w = (Py.comprehension f l, w).
Proof.
  induction l as [|x l IH]; [done|].
  rewrite comprehension_cons. cbn [for_each].
  unfold mbind at 1, M_bind at 1, lift at 1.
  destruct (f x) as [y|e]; [|done].
  unfold mbind at 1, M_bind at 1. rewrite IH.
  by destruct (Py.comprehension f l).
Qed.

Lemma comprehension_ok_iff {A B} (f : A → result B) l r :
  Py.comprehension f l = Ok r ↔ Forall2 (fun x y => f x = Ok y) l r.
Proof.
  revert r. induction l as [|x l IH]; intros r.
  - split; [by intros [= <-]; constructor|by inversion 1].
  - rewrite comprehension_cons. split.
    + destruct (f x) as [y|] eqn:Hy; [|done].
      destruct (Py.comprehension f l) as [ys|] eqn:Hys; [|done].
      intros [= <-]. constructor; [done|by apply IH].
    + inversion 1 as [|? y ? ys Hy Hys]; subst. rewrite Hy.
      apply IH in Hys. by rewrite Hys.
Qed.

Lemma comprehension_first_failure {A B} (f : A → result B) pre x post e :
  Forall (fun x => ∃ y, f x = Ok y) pre → f x = Raise e →
  Py.comprehension f (pre ++ x :: post) = Raise e.
Proof.
  intros Hpre Hx. induction Hpre as [|z pre [y Hy] _ IH]; cbn [app].
  - rewrite comprehension_cons. by rewrite Hx.
  - rewrite comprehension_cons, Hy, IH. done.
Qed.

Lemma create_embeddings_eq p ts w :
  Main.create_embeddings p ts w
  = (Py.comprehension (embeddings_create p (embedding_model w)) ts, w).
Proof.
  unfold Main.create_embeddings, mbind, M_bind, Os.getenv, gets.
  fold (embedding_model w). apply for_each_lift.
Qed.

Lemma agno_create_embeddings_eq :
  AgnoQA.create_embeddings = Main.create_embeddings.
Proof. reflexivity. Qed.

(** X7: [create_embeddings] keeps the texts and the vectors aligned.  It
    returns a list exactly when the embedding service answers for every
    text; the list then has one vector per text, in the order of the
    texts, each the service's answer for the text at the same index under
    the model named by [EMBEDDING_MODEL].  It never changes the files or
    the environment. *)
Theorem create_embeddings_aligned p ts w embs w' :
  (Main.create_embeddings p ts w = (Ok embs, w') ↔
   w' = w ∧ Forall2 (fun t v => embeddings_create p (embedding_model w) t = Ok v)
              ts embs)
  ∧ (AgnoQA.create_embeddings p ts w = (Ok embs, w') ↔
     w' = w ∧ Forall2 (fun t v => embeddings_create p (embedding_model w) t = Ok v)
                ts embs)
  ∧ (Main.create_embeddings p ts w = (Ok embs, w') →
     length embs = length ts
     ∧ ∀ i t, ts !! i = Some t →
         ∃ v, embs !! i = Some v
              ∧ embeddings_create p (embedding_model w) t = Ok v)
  ∧ (Main.create_embeddings p ts w).2 = w.
Proof.
  assert (Main.create_embeddings p ts w = (Ok embs, w') ↔
          w' = w ∧ Forall2 (fun t v =>
                      embeddings_create p (embedding_model w) t = Ok v) ts embs)
    as Hiff.
  { rewrite create_embeddings_eq. split.
    - intros [= Hc <-]. split; [done|]. by apply comprehension_ok_iff.
    - intros [-> Hall]. apply comprehension_ok_iff in Hall. by rewrite Hall. }
  split_and!; [done|by rewrite agno_create_embeddings_eq| |].
  - intros [_ Hall]%Hiff. split.
    + symmetry. by eapply Forall2_length.
    + intros i t Ht.
      destruct (Forall2_lookup_l _ _ _ _ _ Hall Ht) as (v & Hv & Hok).
      by exists v.
  - by rewrite create_embeddings_eq.
Qed.

Lemma create_embeddings_aligned_witness :
  length [scenario_query; scenario_query] = length scenario_texts
  ∧ ∀ i t, scenario_texts !! i = Some t →
      ∃ v, [scenario_query; scenario_query] !! i = Some v
           ∧ embeddings_create scenario_provider
               (embedding_model scenario_world) t = Ok v.
Proof.
  apply (proj1 (proj2 (proj2 (create_embeddings_aligned scenario_provider
                   scenario_texts scenario_world
                   [scenario_query; scenario_query] scenario_world)))).
  reflexivity.
Defined.

(** X8: [create_embeddings] stops at the first text the embedding service
    fails on and raises that error, whatever texts follow; the world is
    left as it was. *)
Theorem create_embeddings_first_failure p pre t post e w :
  Forall (fun t' => ∃ v, embeddings_create p (embedding_model w) t' = Ok v) pre →
  embeddings_create p (embedding_model w) t = Raise e →
  Main.create_embeddings p (pre ++ t :: post) w = (Raise e, w)
  ∧ AgnoQA.create_embeddings p (pre ++ t :: post) w = (Raise e, w).
Proof.
  intros Hpre Ht.
  assert (Main.create_embeddings p (pre ++ t :: post) w = (Raise e, w)) as H.
  { rewrite create_embeddings_eq. by rewrite (comprehension_first_failure _ _ _ _ e). }
  split; [done|by rewrite agno_create_embeddings_eq].
Qed.

Lemma create_embeddings_first_failure_witness :
  Main.create_embeddings failing_provider
    (["good"%string] ++ "bad"%string :: ["later"%string]) (fresh_world "x")
  = (Raise ProviderError, fresh_world "x")
  ∧ AgnoQA.create_embeddings failing_provider
      (["good"%string] ++ "bad"%string :: ["later"%string]) (fresh_world "x")
    = (Raise ProviderError, fresh_world "x").
Proof.
  apply (create_embeddings_first_failure failing_provider ["good"%string]
           "bad"%string ["later"%string] ProviderError (fresh_world "x")).
  - constructor; [|constructor]. by eexists.
  - reflexivity.
Defined.

Lemma main_startup_present p w j :
  embedding_json w = Some j →
  Main.main_startup p w = Main.load_embeddings w.
Proof.
  intros H. unfold Main.main_startup, mbind at 1, M_bind at 1.
  unfold Os.path_exists_embedding_json, gets. rewrite H.
  by rewrite bool_decide_true by done.
Qed.

Lemma main_startup_absent p w :
  embedding_json w = None →
  Main.main_startup p w
  = match content_txt w with
    | None => (Raise FileNotFoundError, w)
    | Some text =>
        let ts := Main.stripped_lines (source_lines text) in
        match Py.comprehension (embeddings_create p (embedding_model w)) ts with
        | Raise e => (Raise e, w)
        | Ok embs =>
            if embedding_data_dir w
            then (Ok (Store ts embs),
                  set_embedding_json (Some (Document (Store ts embs))) w)
            else (Raise FileNotFoundError, w)
        end
    end.
Proof.
  intros H. unfold Main.main_startup, mbind at 1, M_bind at 1.
  unfold Os.path_exists_embedding_json, gets. rewrite H.
  rewrite bool_decide_false by (by intros [? ?]).
  unfold mbind at 1, M_bind at 1.
  destruct (content_txt w) as [text|] eqn:Hc.
  - rewrite (load_content_some _ _ Hc). cbn zeta.
    unfold mbind at 1, M_bind at 1. rewrite create_embeddings_eq.
    destruct (Py.comprehension _ _) as [embs|e]; [|done].
    unfold mbind at 1, M_bind at 1, Main.save_embeddings.
    unfold mbind at 1, M_bind at 1, gets.
    by destruct (embedding_data_dir w).
  - unfold Main.load_content, mbind, M_bind, Main.open_content_txt.
    by rewrite Hc.
Qed.

Lemma main_startup_cases p w r w' :
  Main.main_startup p w = (r, w') →
  (∀ e, r = Raise e → w' = w)
  ∧ (∀ s, r = Ok s →
       embedding_json w' = Some (Document s)
       ∧ Main.load_embeddings w' = (Ok s, w')
       ∧ content_txt w' = content_txt w
       ∧ environ w' = environ w
       ∧ stored_data w' = stored_data w
       ∧ embedding_data_dir w' = embedding_data_dir w).
Proof.
  destruct (embedding_json w) as [j|] eqn:Hj.
  - rewrite (main_startup_present _ _ _ Hj). unfold Main.load_embeddings.
    rewrite Hj. destruct j as [|d]; intros [= <- <-].
    + split; [done|]. by intros s [=].
    + split; [by intros e [=]|]. intros s [= <-]. by rewrite Hj.
  - rewrite (main_startup_absent _ _ Hj).
    destruct (content_txt w) as [text|] eqn:Hc;
      [|intros [= <- <-]; split; by intros].
    cbn zeta. destruct (Py.comprehension _ _) as [embs|e];
      [|intros [= <- <-]; split; by intros].
    destruct (embedding_data_dir w) eqn:Hd;
      [|intros [= <- <-]; split; by intros].
    intros [= <- <-]. split; [by intros e [=]|]. intros s [= <-].
    split_and!; cbn; done.
Qed.

(** X9: the start-up of [main] either fails and leaves the files as they
    were, so that a failed build never writes a store, or returns a store
    that is exactly the persisted artifact: loading again returns it.  It
    changes nothing but the store file. *)
Theorem main_startup_outcome p w r w' :
  Main.main_startup p w = (r, w') →
  (∀ e, r = Raise e → w' = w)
  ∧ (∀ s, r = Ok s →
       embedding_json w' = Some (Document s)
       ∧ Main.load_embeddings w' = (Ok s, w')
       ∧ content_txt w' = content_txt w
       ∧ environ w' = environ w
       ∧ stored_data w' = stored_data w
       ∧ embedding_data_dir w' = embedding_data_dir w).
Proof. apply main_startup_cases. Qed.

Lemma main_startup_outcome_witness :
  (∀ e, @Ok store scenario_store = Raise e → scenario_world = scenario_world)
  ∧ (∀ s, Ok scenario_store = Ok s →
       embedding_json scenario_world = Some (Document s)
       ∧ Main.load_embeddings scenario_world = (Ok s, scenario_world)
       ∧ content_txt scenario_world = content_txt scenario_world
       ∧ environ scenario_world = environ scenario_world
       ∧ stored_data scenario_world = stored_data scenario_world
       ∧ embedding_data_dir scenario_world = embedding_data_dir scenario_world).
Proof.
  apply (main_startup_outcome scenario_provider scenario_world
           (Ok scenario_store) scenario_world).
  reflexivity.
Defined.

(** X10: a store built by the start-up of [main] is aligned.  When no
    store file exists and the start-up succeeds, the texts of the returned
    store are the trimmed non-blank lines of the content file, in order,
    and its vectors are the embedding service's answers for these texts,
    index by index; both sequences have the same length. *)
Theorem main_startup_builds_aligned_store p w s w' :
  embedding_json w = None →
  Main.main_startup p w = (Ok s, w') →
  ∃ text, content_txt w = Some text
    ∧ texts s = map Py.strip (List.filter nonblank (source_lines text))
    ∧ Forall2 (fun t v => embeddings_create p (embedding_model w) t = Ok v)
        (texts s) (embeddings s)
    ∧ length (texts s) = length (embeddings s)
    ∧ w' = set_embedding_json (Some (Document s)) w.
Proof.
  intros Hj. rewrite (main_startup_absent _ _ Hj).
  destruct (content_txt w) as [text|]; [|done]. cbn zeta.
  destruct (Py.comprehension _ _) as [embs|e] eqn:Hc; [|done].
  destruct (embedding_data_dir w); [|done].
  intros [= <- <-]. apply comprehension_ok_iff in Hc.
  exists text. split_and!; [done|apply stripped_lines_spec|done| |done].
  by eapply Forall2_length.
Qed.

Lemma main_startup_builds_aligned_store_witness :
  ∃ text, content_txt (fresh_world "Microsoft invests") = Some text
    ∧ texts (Store ["Microsoft invests"%string] [scenario_query])
      = map Py.strip (List.filter nonblank (source_lines text))
    ∧ Forall2 (fun t v => embeddings_create scenario_provider
                            (embedding_model (fresh_world "Microsoft invests")) t
                          = Ok v)
        (texts (Store ["Microsoft invests"%string] [scenario_query]))
        (embeddings (Store ["Microsoft invests"%string] [scenario_query]))
    ∧ length (texts (Store ["Microsoft invests"%string] [scenario_query]))
      = length (embeddings (Store ["Microsoft invests"%string] [scenario_query]))
    ∧ set_embedding_json
        (Some (Document (Store ["Microsoft invests"%string] [scenario_query])))
        (fresh_world "Microsoft invests")
      = set_embedding_json
          (Some (Document (Store ["Microsoft invests"%string] [scenario_query])))
          (fresh_world "Microsoft invests").
Proof.
  apply (main_startup_builds_aligned_store scenario_provider
           (fresh_world "Microsoft invests")
           (Store ["Microsoft invests"%string] [scenario_query])
           (set_embedding_json
              (Some (Document (Store ["Microsoft invests"%string] [scenario_query])))
              (fresh_world "Microsoft invests"))).
  - reflexivity.
  - by vm_compute.
Defined.

(** X11: once a store file exists, the start-up of [main] never rebuilds
    it.  After a successful start-up, starting again in any world that
    holds the same store file returns the same store and writes nothing,
    whatever the content file and the embedding service have become. *)
Theorem main_startup_never_rebuilds p w s w' :
  Main.main_startup p w = (Ok s, w') →
  ∀ p' w'', embedding_json w'' = embedding_json w' →
    Main.main_startup p' w'' = (Ok s, w'').
Proof.
  intros H p' w'' Hw''.
  destruct (main_startup_cases _ _ _ _ H) as [_ Hok].
  destruct (Hok s eq_refl) as (Hj & _).
  rewrite Hj in Hw''. rewrite (main_startup_present _ _ _ Hw'').
  unfold Main.load_embeddings. by rewrite Hw''.
Qed.

Lemma main_startup_never_rebuilds_witness :
  Main.main_startup failing_provider
    (world_with (Some (Document scenario_store)))
  = (Ok scenario_store, world_with (Some (Document scenario_store))).
Proof.
  apply (main_startup_never_rebuilds scenario_provider scenario_world
           scenario_store scenario_world eq_refl failing_provider
           (world_with (Some (Document scenario_store)))).
  reflexivity.
Defined.

(** * The module-level store of [9_agno_qa.py] *)

Lemma module_init_eq w :
  AgnoQA.module_init w = (Ok tt, set_stored_data (loadable w) w).
Proof.
  unfold AgnoQA.module_init, mbind at 1, M_bind at 1, modify at 1.
  unfold try_except, mbind, M_bind, AgnoQA.load_embeddings, modify, loadable.
  cbn. by destruct (embedding_json w) as [[|d]|].
Qed.

Lemma contexts_agree p query w d :
  stored_data w = Some d → embedding_json w = Some (Document d) →
  AgnoQA.get_relevant_context p query w = Main.relevant_context p query w.
Proof.
  intros Hs Hj.
  by rewrite (get_relevant_context_some _ _ _ _ Hs),
             (relevant_context_some _ _ _ _ Hj), agno_find_most_similar_eq.
Qed.

(** X12: the module-level statements of [9_agno_qa.py] never raise.  They
    leave the files as they are and set the global store to the persisted
    artifact when it can be loaded and to [None] otherwise.  A context
    request made next returns, when the artifact was loaded, the context
    that [answer_question] of [main.py] assembles in the same world (or
    raises the same error), and otherwise returns the text
    [Error: Embeddings not loaded] as its result, whatever the embedding
    service would answer. *)
Theorem module_init_then_context p query w :
  AgnoQA.module_init w = (Ok tt, set_stored_data (loadable w) w)
  ∧ (_ ← AgnoQA.module_init; AgnoQA.get_relevant_context p query) w
    = match loadable w with
      | Some d => ((Main.relevant_context p query w).1,
                   set_stored_data (Some d) w)
      | None => (Ok "Error: Embeddings not loaded"%string,
                 set_stored_data None w)
      end.
Proof.
  split; [apply module_init_eq|].
  unfold mbind at 1, M_bind at 1. rewrite module_init_eq.
  unfold loadable. destruct (embedding_json w) as [[|d]|] eqn:Hj; try done.
  rewrite (get_relevant_context_some _ _ _ d) by done.
  by rewrite (relevant_context_some _ _ _ _ Hj), agno_find_most_similar_eq.
Qed.

Lemma agno_main_startup_eq p w :
  AgnoQA.main_startup p w
  = match Main.main_startup p w with
    | (Ok s, w1) => (Ok tt, set_stored_data (Some s) w1)
    | (Raise e, w1) => (Raise e, w1)
    end.
Proof.
  destruct (embedding_json w) as [j|] eqn:Hj.
  - rewrite (main_startup_present _ _ _ Hj).
    unfold AgnoQA.main_startup, mbind at 1, M_bind at 1.
    unfold Os.path_exists_embedding_json, gets. rewrite Hj.
    rewrite bool_decide_true by done.
    unfold mbind, M_bind, AgnoQA.load_embeddings, Main.load_embeddings.
    rewrite Hj. by destruct j.
  - rewrite (main_startup_absent _ _ Hj).
    unfold AgnoQA.main_startup, mbind at 1, M_bind at 1.
    unfold Os.path_exists_embedding_json, gets. rewrite Hj.
    rewrite bool_decide_false by (by intros [? ?]).
    unfold mbind at 1, M_bind at 1. rewrite agno_load_content_eq.
    destruct (content_txt w) as [text|] eqn:Hc.
    + rewrite (load_content_some _ _ Hc). cbn zeta.
      unfold mbind at 1, M_bind at 1.
      rewrite agno_create_embeddings_eq, create_embeddings_eq.
      destruct (Py.comprehension _ _) as [embs|e]; [|done].
      unfold mbind at 1, M_bind at 1, AgnoQA.save_embeddings.
      unfold mbind at 1, M_bind at 1, gets.
      by destruct (embedding_data_dir w).
    + unfold Main.load_content, mbind, M_bind, Main.open_content_txt.
      by rewrite Hc.
Qed.

(** X13: the start-up of [main] in [9_agno_qa.py] either fails and leaves
    the files and the global store as they were, or ends with the global
    store equal to the persisted artifact.  From then on
    [get_relevant_context] never answers [Error: Embeddings not loaded]:
    it returns the context that [answer_question] of [main.py] assembles
    in the same world, or raises the same error. *)
Theorem agno_main_startup_outcome p w r w' :
  AgnoQA.main_startup p w = (r, w') →
  (∀ e, r = Raise e → w' = w)
  ∧ (r = Ok tt →
     ∃ d, stored_data w' = Some d
       ∧ embedding_json w' = Some (Document d)
       ∧ ∀ p' query, AgnoQA.get_relevant_context p' query w'
                     = Main.relevant_context p' query w').
Proof.
  rewrite agno_main_startup_eq.
  destruct (Main.main_startup p w) as [[s|e] w1] eqn:Hm;
    destruct (main_startup_cases _ _ _ _ Hm) as [Hraise Hok].
  - intros [= <- <-]. split; [done|]. intros _.
    destruct (Hok s eq_refl) as (Hj & _).
    exists s. split_and!; [done|done|]. intros p' query.
    by apply (contexts_agree _ _ _ s).
  - intros [= <- <-]. split; [|done]. intros e' _. by apply (Hraise e).
Qed.

Lemma agno_main_startup_outcome_witness :
  (∀ e, @Ok unit tt = Raise e → scenario_world = scenario_world)
  ∧ (Ok tt = Ok tt →
     ∃ d, stored_data scenario_world = Some d
       ∧ embedding_json scenario_world = Some (Document d)
       ∧ ∀ p' query, AgnoQA.get_relevant_context p' query scenario_world
                     = Main.relevant_context p' query scenario_world).
Proof.
  apply (agno_main_startup_outcome scenario_provider scenario_world
           (Ok tt) scenario_world).
  reflexivity.
Defined.

(** * The outcomes of [answer_question] *)

Lemma relevant_context_eq p question w :
  Main.relevant_context p question w
  = (qe ← embeddings_create p (embedding_model w) question;
     d ← (Main.load_embeddings w).1;
     ts ← Main.find_most_similar qe (embeddings d) (texts d) 3;
     Ok (Py.join blank_line ts), w).
Proof.
  unfold Main.relevant_context, mbind at 1, M_bind at 1.
  unfold Os.getenv, gets, lift. fold (embedding_model w).
  unfold mbind at 1, M_bind at 1.
  destruct (embeddings_create p (embedding_model w) question) as [qe|e]; [|done].
  unfold mbind at 1, M_bind at 1, Main.load_embeddings.
  destruct (embedding_json w) as [[|d]|]; try done.
  unfold mbind at 1, M_bind at 1, lift, Main.default_top_k.
  cbn -[Main.find_most_similar Py.join].
  by destruct (Main.find_most_similar qe (embeddings d) (texts d) 3).
Qed.

Lemma answer_question_eq p question w :
  Main.answer_question p question w
  = (context ← (Main.relevant_context p question w).1;
     chat_completions_create p (completion_model w)
       [("system", Main.system_prompt);
        ("user", Main.user_prompt context question)]%string, w).
Proof.
  unfold Main.answer_question, mbind at 1, M_bind at 1.
  pose proof (read_only_relevant_context p question w) as Hw.
  destruct (Main.relevant_context p question w) as [[context|e] w'];
    cbn in Hw; subst w'; [|done].
  by unfold mbind, M_bind, Os.getenv, gets, lift.
Qed.

(** X14: [answer_question] asks the embedding service first, so its error
    is raised whatever the state of the store; with an embedded question a
    missing store file raises [FileNotFoundError] and an undecodable one
    [JSONDecodeError].  An answer is returned exactly when the search
    succeeds on a decodable store and the completion service replies: the
    answer is its reply to the system prompt and the user message
    [Context:\n<context>\n\nQuestion: <question>], the context being the
    texts found, joined by blank lines. *)
Theorem answer_question_outcome p question w :
  (∀ e, embeddings_create p (embedding_model w) question = Raise e →
        Main.answer_question p question w = (Raise e, w))
  ∧ (∀ qe, embeddings_create p (embedding_model w) question = Ok qe →
       (embedding_json w = None →
        Main.answer_question p question w = (Raise FileNotFoundError, w))
       ∧ (embedding_json w = Some NotJson →
          Main.answer_question p question w = (Raise JSONDecodeError, w)))
  ∧ (∀ a, (Main.answer_question p question w).1 = Ok a ↔
       ∃ qe d ts,
         embeddings_create p (embedding_model w) question = Ok qe
         ∧ embedding_json w = Some (Document d)
         ∧ Main.find_most_similar qe (embeddings d) (texts d) 3 = Ok ts
         ∧ chat_completions_create p (completion_model w)
             [("system", Main.system_prompt);
              ("user", Main.user_prompt (Py.join blank_line ts) question)]%string
           = Ok a).
Proof.
  rewrite answer_question_eq, relevant_context_eq. cbn [fst].
  unfold Main.load_embeddings. split_and!.
  - by intros e ->.
  - intros qe ->. split; by intros ->.
  - intros a. split.
    + destruct (embeddings_create _ _ _) as [qe|]; [|done].
      destruct (embedding_json w) as [[|d]|]; try done.
      cbn -[Main.find_most_similar Py.join].
      destruct (Main.find_most_similar qe _ _ 3) as [ts|] eqn:Hts; [|done].
      cbn -[Py.join]. intros Ha. by exists qe, d, ts.
    + intros (qe & d & ts & -> & -> & Hts & Ha).
      cbn -[Main.find_most_similar Py.join]. rewrite Hts.
      cbn -[Py.join]. exact Ha.
Qed.

Lemma answer_question_outcome_witness :
  Main.answer_question failing_provider "bad" scenario_world
  = (Raise ProviderError, scenario_world).
Proof.
  apply (proj1 (answer_question_outcome failing_provider "bad" scenario_world)
           ProviderError).
  reflexivity.
Defined.

(** * More on the content loader *)

Lemma string_ind_pairs (P : string → Prop) :
  P EmptyString →
  (∀ c, P (String c EmptyString)) →
  (∀ c c' r, P r → P (String c' r) → P (String c (String c' r))) →
  ∀ s, P s.
Proof.
  intros H0 H1 H2 s.
  assert (P s ∧ ∀ c, P (String c s)) as [? _]; [|done].
  induction s as [|c' r [IH1 IH2]]; [by split|].
  split; [apply IH2|]. intros c. apply H2; [done|apply IH2].
Qed.

Lemma universal_newlines_no_cr s :
  contains Py.CR (Py.universal_newlines s) = false.
Proof.
  induction s as [|c|c c' r IH1 IH2] using string_ind_pairs; cbn.
  - done.
  - by destruct (Ascii.eqb_spec c Py.CR) as [->|]; cbn; [|rewrite orb_false_r;
      apply Ascii.eqb_neq].
  - destruct (Ascii.eqb_spec c Py.CR) as [->|Hc].
    + destruct (Ascii.eqb c' Py.LF); cbn; [exact IH1|exact IH2].
    + cbn in IH2. cbn. rewrite IH2, orb_false_r. by apply Ascii.eqb_neq.
Qed.

Lemma universal_newlines_blank s :
  is_blank (Py.universal_newlines s) = is_blank s.
Proof.
  assert (Py.isspace Py.CR = true) as Hcr by done.
  assert (Py.isspace Py.LF = true) as Hlf by done.
  induction s as [|c|c c' r IH1 IH2] using string_ind_pairs; cbn.
  - done.
  - destruct (Ascii.eqb_spec c Py.CR) as [->|]; cbn; [|done].
    by rewrite Hcr, Hlf.
  - destruct (Ascii.eqb_spec c Py.CR) as [->|Hc].
    + rewrite Hcr. destruct (Ascii.eqb_spec c' Py.LF) as [->|]; cbn.
      * by rewrite Hlf, IH1.
      * cbn in IH2. by rewrite Hlf, IH2.
    + cbn in IH2. cbn. by rewrite IH2.
Qed.

Lemma iter_lines_concat s : concat_strings (Py.iter_lines s) = s.
Proof.
  induction s as [|c r IH]; [done|]. cbn [Py.iter_lines].
  unfold concat_strings in *.
  destruct (Ascii.eqb_spec c Py.LF) as [->|Hc].
  - cbn [fold_right]. by rewrite IH.
  - destruct (Py.iter_lines r) as [|l ls]; cbn [fold_right] in *.
    + by rewrite <- IH.
    + by rewrite append_cons, IH.
Qed.

Lemma is_blank_append a b :
  is_blank (a ++ b)%string = is_blank a && is_blank b.
Proof.
  induction a as [|x a IH]; [done|].
  rewrite append_cons. cbn. by rewrite IH, andb_assoc.
Qed.

Lemma is_blank_concat ls :
  is_blank (concat_strings ls) = forallb is_blank ls.
Proof.
  induction ls as [|l ls IH]; [done|].
  change (concat_strings (l :: ls)) with (l ++ concat_strings ls)%string.
  cbn [forallb]. by rewrite is_blank_append, IH.
Qed.

Lemma stripped_lines_nil ls :
  Main.stripped_lines ls = [] ↔ forallb is_blank ls = true.
Proof.
  induction ls as [|l ls IH]; [done|]. cbn.
  rewrite truthy_strip. unfold nonblank.
  destruct (is_blank l); cbn; [exact IH|done].
Qed.

Lemma contains_append c a b :
  contains c (a ++ b)%string = contains c a || contains c b.
Proof.
  induction a as [|x a IH]; [done|].
  rewrite append_cons. cbn. by rewrite IH, orb_assoc.
Qed.

Lemma trimmed_contains c line t :
  trimmed_of line t → contains c line = false → contains c t = false.
Proof.
  intros (pre & post & -> & _) H.
  rewrite !contains_append in H.
  by apply orb_false_iff in H as [_ [? _]%orb_false_iff].
Qed.

Lemma iter_lines_no_cr s :
  contains Py.CR s = false →
  Forall (fun l => contains Py.CR l = false) (Py.iter_lines s).
Proof.
  induction s as [|c r IH]; cbn; [constructor|].
  intros [Hc Hr]%orb_false_iff. specialize (IH Hr).
  destruct (Ascii.eqb c Py.LF); [by constructor|].
  destruct IH as [|l ls Hl Hls]; constructor; cbn; rewrite ?Hc; done.
Qed.

Lemma iter_lines_lf_only_last s :
  Forall (fun l => lf_only_last l = true) (Py.iter_lines s).
Proof.
  induction s as [|c r IH]; cbn; [constructor|].
  destruct (Ascii.eqb c Py.LF) eqn:Hc.
  - constructor; [by vm_compute|done].
  - destruct IH as [|l ls Hl Hls]; constructor; cbn; rewrite ?Hc; done.
Qed.

Lemma lstrip_lf_only_last l :
  lf_only_last l = true → lf_only_last (Py.lstrip l) = true.
Proof.
  induction l as [|c r IH]; [done|]. cbn [Py.lstrip].
  destruct (Py.isspace c); [|done]. cbn.
  destruct (Ascii.eqb c Py.LF); [by destruct r|exact IH].
Qed.

Lemma rstrip_no_lf l :
  lf_only_last l = true → contains Py.LF (Py.rstrip l) = false.
Proof.
  assert (Py.isspace Py.LF = true) as Hlf by done.
  induction l as [|c r IH]; [done|]. cbn.
  destruct (Ascii.eqb_spec c Py.LF) as [->|Hc].
  - destruct r; [|done]. cbn. by rewrite Hlf.
  - intros Hr. specialize (IH Hr).
    apply Ascii.eqb_neq in Hc.
    destruct (Py.rstrip r) as [|c' r'] eqn:Er.
    + destruct (Py.isspace c); cbn; by rewrite ?Hc.
    + cbn in *. by rewrite Hc, IH.
Qed.

Lemma strip_no_lf l :
  lf_only_last l = true → contains Py.LF (Py.strip l) = false.
Proof. intros H. by apply rstrip_no_lf, lstrip_lf_only_last. Qed.

Lemma rag_load_content_eq : Rag.load_content = Main.load_content.
Proof. reflexivity. Qed.

Lemma human_loop_load_content_eq : HumanLoop.load_content = Main.load_content.
Proof. reflexivity. Qed.

(** X15: every record that [load_content] returns is a single line: it
    contains neither a line feed nor a carriage return, whatever line
    endings the file uses.  This holds for the four copies of the
    function. *)
Theorem load_content_records_are_single_lines w recs w' :
  Main.load_content w = (Ok recs, w') →
  AgnoQA.load_content w = (Ok recs, w')
  ∧ Rag.load_content w = (Ok recs, w')
  ∧ HumanLoop.load_content w = (Ok recs, w')
  ∧ Forall (fun r => contains Py.LF r = false ∧ contains Py.CR r = false) recs.
Proof.
  intros H. split_and!;
    [by rewrite agno_load_content_eq|by rewrite rag_load_content_eq
    |by rewrite human_loop_load_content_eq|].
  destruct (content_txt w) as [text|] eqn:Hc.
  - rewrite (load_content_some _ _ Hc) in H. injection H as <- <-.
    rewrite stripped_lines_spec. apply Forall_forall. intros r Hr.
    apply list_elem_of_In, in_map_iff in Hr as (l & <- & Hin).
    apply filter_In in Hin as [Hin _]. apply list_elem_of_In in Hin.
    split.
    + apply strip_no_lf.
      pose proof (iter_lines_lf_only_last (Py.universal_newlines text)) as Hall.
      rewrite Forall_forall in Hall. by apply Hall.
    + apply (trimmed_contains _ l); [apply strip_trimmed|].
      pose proof (iter_lines_no_cr _ (universal_newlines_no_cr text)) as Hall.
      rewrite Forall_forall in Hall. by apply Hall.
  - unfold Main.load_content, mbind, M_bind, Main.open_content_txt in H.
    by rewrite Hc in H.
Qed.

Lemma load_content_records_are_single_lines_witness :
  AgnoQA.load_content (content_world "  first line ")
  = (Ok ["first line"%string], content_world "  first line ")
  ∧ Rag.load_content (content_world "  first line ")
    = (Ok ["first line"%string], content_world "  first line ")
  ∧ HumanLoop.load_content (content_world "  first line ")
    = (Ok ["first line"%string], content_world "  first line ")
  ∧ Forall (fun r => contains Py.LF r = false ∧ contains Py.CR r = false)
      ["first line"%string].
Proof.
  apply (load_content_records_are_single_lines (content_world "  first line ")
           ["first line"%string] (content_world "  first line ")).
  reflexivity.
Defined.

(** X16: [load_content] returns the empty list exactly when the content
    file is empty or holds only whitespace; a file with any other
    character yields at least one record. *)
Theorem load_content_empty_iff_blank w text :
  content_txt w = Some text →
  (Main.load_content w = (Ok [], w) ↔ is_blank text = true)
  ∧ (AgnoQA.load_content w = (Ok [], w) ↔ is_blank text = true)
  ∧ (Rag.load_content w = (Ok [], w) ↔ is_blank text = true)
  ∧ (HumanLoop.load_content w = (Ok [], w) ↔ is_blank text = true).
Proof.
  intros Hc.
  assert (Main.load_content w = (Ok [], w) ↔ is_blank text = true) as H.
  { rewrite (load_content_some _ _ Hc).
    rewrite <- universal_newlines_blank,
            <- (iter_lines_concat (Py.universal_newlines text)),
            is_blank_concat, <- stripped_lines_nil.
    unfold source_lines. split; [by intros [= ->]|by intros ->]. }
  split_and!; [done|by rewrite agno_load_content_eq
              |by rewrite rag_load_content_eq
              |by rewrite human_loop_load_content_eq].
Qed.

Lemma load_content_empty_iff_blank_witness :
  (Main.load_content (content_world "   ") = (Ok [], content_world "   ")
   ↔ is_blank "   " = true)
  ∧ (AgnoQA.load_content (content_world "   ") = (Ok [], content_world "   ")
     ↔ is_blank "   " = true)
  ∧ (Rag.load_content (content_world "   ") = (Ok [], content_world "   ")
     ↔ is_blank "   " = true)
  ∧ (HumanLoop.load_content (content_world "   ") = (Ok [], content_world "   ")
     ↔ is_blank "   " = true).
Proof.
  apply (load_content_empty_iff_blank (content_world "   ") "   ").
  reflexivity.
Defined.

(** * From an empty content file to the first question *)

(** X17: when the content file is empty or holds only whitespace, no
    store exists and the directory of the store does, the start-up of
    [main] succeeds and persists a store without records.  From then on
    every call of [answer_question] raises and returns no answer: it
    raises the error of the embedding service when that fails, and
    otherwise [ValueError] from the search ([AxisError] for a query vector
    without components). *)
Theorem blank_content_builds_unsearchable_store p w text :
  content_txt w = Some text → is_blank text = true →
  embedding_json w = None → embedding_data_dir w = true →
  Main.main_startup p w
  = (Ok (Store [] []), set_embedding_json (Some (Document (Store [] []))) w)
  ∧ ∀ p' question,
      let w' := set_embedding_json (Some (Document (Store [] []))) w in
      ∃ e, Main.answer_question p' question w' = (Raise e, w')
        ∧ (∀ e', embeddings_create p' (embedding_model w) question = Raise e' →
                 e = e')
        ∧ (∀ qe, embeddings_create p' (embedding_model w) question = Ok qe →
                 e = match qe with [] => AxisError | _ => ValueError end).
Proof.
  intros Hc Hblank Hj Hdir.
  assert (Main.stripped_lines (source_lines text) = []) as Hnil.
  { apply stripped_lines_nil. unfold source_lines.
    by rewrite <- is_blank_concat, iter_lines_concat, universal_newlines_blank. }
  split.
  - rewrite (main_startup_absent _ _ Hj), Hc. cbn zeta.
    rewrite Hnil. cbn. by rewrite Hdir.
  - intros p' question w'.
    rewrite answer_question_eq, relevant_context_eq.
    change (embedding_model w') with (embedding_model w).
    destruct (embeddings_create p' (embedding_model w) question) as [qe|e].
    + exists (match qe with [] => AxisError | _ => ValueError end).
      split_and!; [by destruct qe|done|by intros ? [= <-]].
    + exists e. split_and!; [done|by intros ? [= <-]|done].
Qed.

Lemma blank_content_builds_unsearchable_store_witness :
  Main.main_startup scenario_provider (fresh_world "   ")
  = (Ok (Store [] []),
     set_embedding_json (Some (Document (Store [] []))) (fresh_world "   "))
  ∧ ∀ p' question,
      let w' := set_embedding_json (Some (Document (Store [] [])))
                  (fresh_world "   ") in
      ∃ e, Main.answer_question p' question w' = (Raise e, w')
        ∧ (∀ e', embeddings_create p' (embedding_model (fresh_world "   "))
                   question = Raise e' → e = e')
        ∧ (∀ qe, embeddings_create p' (embedding_model (fresh_world "   "))
                   question = Ok qe →
                 e = match qe with [] => AxisError | _ => ValueError end).
Proof.
  apply (blank_content_builds_unsearchable_store scenario_provider
           (fresh_world "   ") "   "); reflexivity.
Defined.

(** * The run of [main] *)

Lemma read_only_answer_question p question :
  read_only (Main.answer_question p question).
Proof. intros w. by rewrite answer_question_eq. Qed.

Lemma question_loop_world p stdin w : (Main.question_loop p stdin w).2 = w.
Proof.
  induction stdin as [|question stdin IH]; [done|]. cbn [Main.question_loop].
  destruct (String.eqb _ _); [done|].
  pose proof (read_only_answer_question p question w) as Hw.
  destruct (Main.answer_question p question w) as [[answer|e] w'];
    cbn in Hw; subst w'; [|done].
  destruct (Main.question_loop p stdin w) as [[out h] w''] eqn:Hl.
  by cbn in *.
Qed.

(** X18: [main] is its start-up followed by the question loop, and the
    loop writes nothing: the files after a run of [main] are the files
    after the start-up, whatever is typed.  When the start-up fails, the
    run ends with that exception before the user is asked anything; when
    it succeeds, the run ends as the question loop ends. *)
Theorem main_is_startup_then_loop p stdin w :
  (Main.main p stdin w).2 = (Main.main_startup p w).2
  ∧ (∀ e, (Main.main_startup p w).1 = Raise e →
       (Main.main p stdin w).1.2 = Main.Uncaught e
       ∧ Main.prompt ∉ (Main.main p stdin w).1.1)
  ∧ (∀ s, (Main.main_startup p w).1 = Ok s →
       (Main.main p stdin w).1.2
       = (Main.question_loop p stdin (Main.main_startup p w).2).1.2).
Proof.
  unfold Main.main, Os.path_exists_embedding_json, gets.
  destruct (embedding_json w) as [j|] eqn:Hj.
  - rewrite (main_startup_present _ _ _ Hj), bool_decide_true by done.
    unfold Main.load_embeddings. rewrite Hj. destruct j as [|d].
    + split_and!; [done| |done]. intros e [= <-]. split; [done|].
      cbn. by intros [?|?%elem_of_nil]%elem_of_cons.
    + pose proof (question_loop_world p stdin w) as Hw. cbn [fst snd].
      destruct (Main.question_loop p stdin w) as [[out h] w2].
      cbn in Hw. subst w2. by split_and!.
  - rewrite (main_startup_absent _ _ Hj),
      bool_decide_false by (by intros [? ?]).
    destruct (content_txt w) as [text|] eqn:Hc.
    + rewrite (load_content_some _ _ Hc), create_embeddings_eq. cbn zeta.
      destruct (Py.comprehension _ _) as [embs|e'].
      * unfold Main.save_embeddings, mbind, M_bind, gets, modify, raise, lift.
        destruct (embedding_data_dir w).
        -- cbn [fst snd]. set (w3 := set_embedding_json _ w).
           pose proof (question_loop_world p stdin w3) as Hw.
           destruct (Main.question_loop p stdin w3) as [[out h] w4].
           cbn in Hw. subst w4. by split_and!.
        -- split_and!; [done| |done]. intros e [= <-]. split; [done|].
           cbn. intros [?|[?|?%elem_of_nil]%elem_of_cons]%elem_of_cons; done.
      * split_and!; [done| |done]. intros e [= <-]. split; [done|].
        cbn. by intros [?|?%elem_of_nil]%elem_of_cons.
    + unfold Main.load_content, mbind, M_bind, Main.open_content_txt.
      rewrite Hc. split_and!; [done| |done]. intros e [= <-].
      split; [done|]. cbn. by intros ?%elem_of_nil.
Qed.

Lemma main_is_startup_then_loop_witness :
  (Main.main failing_provider ["bad"%string] (fresh_world "bad")).1.2
  = Main.Uncaught ProviderError
  ∧ Main.prompt
    ∉ (Main.main failing_provider ["bad"%string] (fresh_world "bad")).1.1.
Proof.
  apply (proj1 (proj2 (main_is_startup_then_loop failing_provider
                         ["bad"%string] (fresh_world "bad")))
           ProviderError).
  reflexivity.
Defined.

Lemma question_loop_answered p qs answers rest w :
  Forall (fun x => Py.lower x ≠ "quit"%string) qs →
  Forall2 (fun x a => (Main.answer_question p x w).1 = Ok a) qs answers →
  Main.question_loop p (qs ++ rest) w
  = (transcript answers ++ (Main.question_loop p rest w).1.1,
     (Main.question_loop p rest w).1.2, w).
Proof.
  intros Hq Ha. revert Hq.
  induction Ha as [|x a qs answers Hx _ IH]; intros Hq.
  - cbn [app transcript flat_map].
    pose proof (question_loop_world p rest w) as Hw.
    destruct (Main.question_loop p rest w) as [[out h] w']. by cbn in *; subst.
  - apply Forall_cons in Hq as [Hxq Hq]. specialize (IH Hq).
    cbn [app Main.question_loop].
    apply String.eqb_neq in Hxq. rewrite Hxq.
    pose proof (read_only_answer_question p x w) as Hw.
    destruct (Main.answer_question p x w) as [r w'].
    cbn in Hx, Hw. subst r w'. by rewrite IH.
Qed.

(** X19: the question loop answers the questions one by one, each against
    the same unchanged world.  If each of the first questions gets an
    answer and the next line is [quit] in any letter case, the loop
    writes, for every question in order, the prompt, the progress line
    and the answer, then the prompt once more, and ends there: what is
    typed after [quit] is never read.  If the input ends instead, the run
    ends with the end of input after the same output. *)
Theorem question_loop_until_quit p qs answers q post w :
  Forall (fun x => Py.lower x ≠ "quit"%string) qs →
  Forall2 (fun x a => (Main.answer_question p x w).1 = Ok a) qs answers →
  Py.lower q = "quit"%string →
  Main.question_loop p (qs ++ q :: post) w
  = (transcript answers ++ [Main.prompt], Main.Quit, w)
  ∧ Main.question_loop p qs w
    = (transcript answers ++ [Main.prompt], Main.EndOfInput, w).
Proof.
  intros Hq Ha Hquit. split.
  - rewrite (question_loop_answered _ _ answers) by done.
    cbn [Main.question_loop]. by rewrite Hquit.
  - rewrite <- (app_nil_r qs) at 1.
    by rewrite (question_loop_answered _ _ answers).
Qed.

Lemma question_loop_until_quit_witness :
  Main.question_loop scenario_provider
    (["Who invests in AI?"%string] ++ "QUIT"%string :: ["ignored"%string])
    scenario_world
  = (transcript ["answer"%string] ++ [Main.prompt], Main.Quit, scenario_world)
  ∧ Main.question_loop scenario_provider ["Who invests in AI?"%string]
      scenario_world
    = (transcript ["answer"%string] ++ [Main.prompt], Main.EndOfInput,
       scenario_world).
Proof.
  apply (question_loop_until_quit scenario_provider
           ["Who invests in AI?"%string] ["answer"%string] "QUIT"%string
           ["ignored"%string] scenario_world).
  - constructor; [|constructor]. by vm_compute.
  - constructor; [|constructor]. by vm_compute.
  - by vm_compute.
Defined.

(** X20: the question loop catches nothing.  The first question for which
    [answer_question] raises ends the run with that exception, after the
    prompt and the progress line of that question; the questions typed
    after it are never read. *)
Theorem question_loop_stops_at_first_error p qs answers q post e w :
  Forall (fun x => Py.lower x ≠ "quit"%string) qs →
  Forall2 (fun x a => (Main.answer_question p x w).1 = Ok a) qs answers →
  Py.lower q ≠ "quit"%string →
  (Main.answer_question p q w).1 = Raise e →
  Main.question_loop p (qs ++ q :: post) w
  = (transcript answers ++ [Main.prompt; Main.finding_answer],
     Main.Uncaught e, w).
Proof.
  intros Hq Ha Hnq He.
  rewrite (question_loop_answered _ _ answers) by done.
  cbn [Main.question_loop].
  apply String.eqb_neq in Hnq. rewrite Hnq.
  pose proof (read_only_answer_question p q w) as Hw.
  destruct (Main.answer_question p q w) as [r w'].
  cbn in He, Hw. by subst r w'.
Qed.

Lemma question_loop_stops_at_first_error_witness :
  Main.question_loop failing_provider
    (["Who invests in AI?"%string] ++ "bad"%string :: ["later"%string])
    scenario_world
  = (transcript ["answer"%string] ++ [Main.prompt; Main.finding_answer],
     Main.Uncaught ProviderError, scenario_world).
Proof.
  apply (question_loop_stops_at_first_error failing_provider
           ["Who invests in AI?"%string] ["answer"%string] "bad"%string
           ["later"%string] ProviderError scenario_world).
  - constructor; [|constructor]. by vm_compute.
  - constructor; [|constructor]. by vm_compute.
  - by vm_compute.
  - by vm_compute.
Defined.

(** * The selection is a top-k *)

(** X21: for an index of [N >= 1] records, a query of the stored dimension
    and [k >= 1], the records that [find_most_similar] returns are the
    [min(k, N)] highest-ranked ones: no record that is left out has a
    score above the score of a returned record, in NumPy's order. *)
Theorem selected_are_top_k q embs k :
  well_formed q embs → 1 ≤ k →
  ∃ sims idx,
    Main.similarities q embs = Ok sims
    ∧ Main.top_indices q embs k = Ok idx
    ∧ AgnoQA.top_indices q embs k = Ok idx
    ∧ length idx = Nat.min (Z.to_nat k) (length embs)
    ∧ ∀ i j, (i < length embs)%nat → i ∉ idx → j ∈ idx →
        Np.lt (score sims j) (score sims i) = false.
Proof.
  intros Hwf Hk.
  pose proof (similarities_ok _ _ Hwf) as Hs.
  pose proof (top_indices_ok _ _ _ Hwf Hk) as Hi.
  eexists _, _. split_and!; [exact Hs|exact Hi|by rewrite agno_top_indices_eq| |].
  - rewrite length_drop, argsort_length, length_map. lia.
  - intros i j Hlt Hni Hj. apply precedes_not_lt.
    by eapply top_indices_are_highest.
Qed.

Lemma selected_are_top_k_witness :
  ∃ sims idx,
    Main.similarities scenario_query scenario_embeddings = Ok sims
    ∧ Main.top_indices scenario_query scenario_embeddings 1 = Ok idx
    ∧ AgnoQA.top_indices scenario_query scenario_embeddings 1 = Ok idx
    ∧ length idx = Nat.min (Z.to_nat 1) (length scenario_embeddings)
    ∧ ∀ i j, (i < length scenario_embeddings)%nat → i ∉ idx → j ∈ idx →
        Np.lt (score sims j) (score sims i) = false.
Proof.
  apply (selected_are_top_k scenario_query scenario_embeddings 1).
  - split; [discriminate|]. repeat constructor.
  - lia.
Defined.

(** * A built store can be searched *)

Lemma comprehension_total {A B} (f : A → result B) l :
  (∀ x, ∃ y, f x = Ok y) → ∃ r, Py.comprehension f l = Ok r.
Proof.
  intros Hf. induction l as [|x l [r IH]]; [by eexists|].
  destruct (Hf x) as [y Hy]. exists (y :: r).
  by rewrite comprehension_cons, Hy, IH.
Qed.

(** X22: a store built by the start-up of [main] can be searched.  When
    no store exists, its directory does, the content file has a character
    that is not whitespace and the embedding service answers every
    request with a vector of one dimension, the start-up succeeds with at
    least one record, and from then on [answer_question] finds a context
    for every question and returns what the completion service replies
    to it. *)
Theorem built_store_is_searchable p D w text :
  fixed_dimension p D →
  content_txt w = Some text → is_blank text = false →
  embedding_json w = None → embedding_data_dir w = true →
  ∃ s w', Main.main_startup p w = (Ok s, w')
    ∧ texts s ≠ []
    ∧ length (texts s) = length (embeddings s)
    ∧ ∀ question, ∃ context,
        Main.relevant_context p question w' = (Ok context, w')
        ∧ Main.answer_question p question w'
          = (chat_completions_create p (completion_model w)
               [("system", Main.system_prompt);
                ("user", Main.user_prompt context question)]%string, w').
Proof.
  intros Hp Hc Hblank Hj Hdir.
  set (ts := Main.stripped_lines (source_lines text)).
  assert (ts ≠ []) as Hts.
  { intros Hnil. apply stripped_lines_nil in Hnil. unfold source_lines in Hnil.
    rewrite <- is_blank_concat, iter_lines_concat,
      universal_newlines_blank in Hnil. congruence. }
  destruct (comprehension_total (embeddings_create p (embedding_model w)) ts)
    as [embs Hembs].
  { intros x. destruct (Hp (embedding_model w) x) as (v & Hv & _). by exists v. }
  pose proof (proj1 (comprehension_ok_iff _ _ _) Hembs) as Hall.
  exists (Store ts embs), (set_embedding_json (Some (Document (Store ts embs))) w).
  split_and!.
  - rewrite (main_startup_absent _ _ Hj), Hc. cbn zeta. fold ts.
    by rewrite Hembs, Hdir.
  - done.
  - by eapply Forall2_length.
  - intros question.
    set (w' := set_embedding_json (Some (Document (Store ts embs))) w).
    destruct (Hp (embedding_model w) question) as (qe & Hqe & Hlen).
    assert (well_formed qe embs) as Hwf.
    { split.
      - intros ->. apply Forall2_length in Hall. by destruct ts.
      - apply Forall_forall. intros row Hrow.
        apply list_elem_of_lookup_1 in Hrow as [i Hi].
        destruct (Forall2_lookup_r _ _ _ _ _ Hall Hi) as (t & _ & Ht).
        destruct (Hp (embedding_model w) t) as (v & Hv & Hlv).
        rewrite Hv in Ht. injection Ht as <-. by rewrite Hlv, Hlen. }
    pose proof (similarities_ok _ _ Hwf) as Hs.
    assert (∃ r, Main.find_most_similar qe embs ts 3 = Ok r) as [r Hr].
    { eexists. apply find_most_similar_select.
      - unfold Main.top_indices. by rewrite Hs.
      - apply Forall2_length in Hall. lia. }
    exists (Py.join blank_line r).
    assert (Main.relevant_context p question w'
            = (Ok (Py.join blank_line r), w')) as Hctx.
    { rewrite relevant_context_eq.
      change (embedding_model w') with (embedding_model w). rewrite Hqe.
      cbn -[Main.find_most_similar Py.join]. by rewrite Hr. }
    split; [done|]. rewrite answer_question_eq, Hctx. done.
Qed.

Lemma built_store_is_searchable_witness :
  ∃ s w', Main.main_startup scenario_provider (fresh_world "Microsoft invests")
          = (Ok s, w')
    ∧ texts s ≠ []
    ∧ length (texts s) = length (embeddings s)
    ∧ ∀ question, ∃ context,
        Main.relevant_context scenario_provider question w' = (Ok context, w')
        ∧ Main.answer_question scenario_provider question w'
          = (chat_completions_create scenario_provider
               (completion_model (fresh_world "Microsoft invests"))
               [("system", Main.system_prompt);
                ("user", Main.user_prompt context question)]%string, w').
Proof.
  apply (built_store_is_searchable scenario_provider 2
           (fresh_world "Microsoft invests") "Microsoft invests").
  - intros model input. by exists scenario_query.
  - reflexivity.
  - reflexivity.
  - reflexivity.
  - reflexivity.
Defined.
